(** * Monkey King Run: gesture classifier and lane simulation

    A shallow embedding of the gameplay core of the runner:
    - [src/utils/gameUtils.ts]      : [GAME_CONSTANTS], [resetGestureState],
                                      [detectGesture];
    - [src/components/GameEngine.tsx]: the input handler, [spawnDecoration],
                                      [spawnObstacle], [updateGameLogic],
                                      [animate] and the game-loop effect;
    - [src/App.tsx]                 : the [GameState] commands.

    Numbers.  A JavaScript number is modelled by an exact rational ([Q]);
    rounding of IEEE doubles is not part of the model.  Counters that only
    ever hold integers (score, lives, lane) are [Z].  Equality of rationals
    is [Qeq] ([==]).

    Environment.  [Math.random()] and [performance.now()] are inputs: every
    call site receives its value from the caller, so all behaviours of the
    program are behaviours of the model.  Meshes, materials, audio and the
    renderer are not modelled; the refs they live in are assigned by the
    initialising effect before the first frame is requested and are never
    cleared, so the null guards on them are always passed. *)

From Stdlib Require Import ZArith QArith Qabs Qminmax Qround Lqa Lia.
From Stdlib Require Import List Bool String.
Import ListNotations.

Local Open Scope Q_scope.

(** ** Comparisons of numbers, as booleans *)

Definition Qltb (x y : Q) : bool := negb (Qle_bool y x).
Definition Qgtb (x y : Q) : bool := Qltb y x.

(** ** src/types.ts *)

Inductive Gesture := NONE | LEFT | RIGHT | JUMP.

(** [Lane] is [0 | 1 | 2] in the source, a number at run time. *)
Definition Lane := Z.

Record Player3D := mkPlayer {
  lane : Lane;
  isJumping : bool;
  jumpStartTime : Q;
  yPosition : Q
}.

Inductive ObstacleType := lava_block | tall_lava.

Record Obstacle3D := mkObstacle {
  o_id : string;
  o_lane : Lane;
  o_z : Q;
  o_type : ObstacleType;
  passed : bool
}.

Inductive DecorationType := tree | grass | flower.

Record Decoration3D := mkDecoration {
  d_id : string;
  d_x : Q;
  d_z : Q;
  d_type : DecorationType;
  rotation : Q
}.

Record GameState := mkGameState {
  isPlaying : bool;
  isPaused : bool;
  score : Z;
  gameOver : bool;
  speed : Q;
  cameraReady : bool;
  lastLaneChange : Q;
  lives : Z
}.

(** ** GAME_CONSTANTS *)

Module GAME_CONSTANTS.
Definition LANE_WIDTH : Q := 3.5.
Definition JUMP_HEIGHT : Q := 3.5.
Definition JUMP_DURATION : Q := 0.7.
Definition START_SPEED : Q := 15.
Definition MAX_SPEED : Q := 40.
Definition SPAWN_DISTANCE : Q := -60.
Definition SPAWN_INTERVAL_BASE : Q := 1.5.
Definition LANE_CHANGE_COOLDOWN : Q := 400.
Definition JUMP_COOLDOWN : Q := 800.
Definition LEAN_THRESHOLD_LEFT : Q := 0.60.
Definition LEAN_THRESHOLD_RIGHT : Q := 0.40.
Definition JUMP_THRESHOLD_Y : Q := 0.05.
Definition INVINCIBILITY_DURATION : Q := 2000.
End GAME_CONSTANTS.
Import GAME_CONSTANTS.

(** ** Gesture detection (gameUtils.ts) *)

(** A pose landmark: normalised screen coordinates. *)
Record Landmark := mkLandmark { lm_x : Q; lm_y : Q }.

(** The landmark array.  An index past the end, or a hole, reads as
    [undefined] in the source: [None] here. *)
Definition Landmarks := list (option Landmark).

Definition landmarkAt (landmarks : Landmarks) (i : nat) : option Landmark :=
  match nth_error landmarks i with
  | Some (Some l) => Some l
  | _ => None
  end.

(** The module-level variables of gameUtils.ts. *)
Record GestureVars := mkGestureVars {
  hipYHistory : list Q;
  baselineHipY : Q;
  lastJumpTime : Q;
  lastGestureTime : Q
}.

Definition resetGestureState : GestureVars :=
  {| hipYHistory := []; baselineHipY := 0; lastJumpTime := 0; lastGestureTime := 0 |}.

(** How a call of [detectGesture] ends: it returns a gesture, or reading a
    property of [undefined] throws. *)
Inductive Outcome := Returned (g : Gesture) | TypeError.

(** [hipYHistory.reduce((a, b) => a + b, 0)] *)
Definition sumY (h : list Q) : Q := fold_left Qplus h 0.

Definition detectGesture (landmarks : option Landmarks) (timestamp : Q)
    (st : GestureVars) : Outcome * GestureVars :=
  match landmarks with
  | None => (Returned NONE, st)
  | Some lms =>
    let nose := landmarkAt lms 0 in
    let leftHip := landmarkAt lms 23 in
    let rightHip := landmarkAt lms 24 in
    let leftShoulder := landmarkAt lms 11 in
    let rightShoulder := landmarkAt lms 12 in
    match leftHip, rightHip, leftShoulder, rightShoulder with
    | Some lh, Some rh, Some ls, Some rs =>
      let currentY := (lm_y lh + lm_y rh + lm_y ls + lm_y rs) / 4 in
      if (List.length (hipYHistory st) <? 30)%nat then
        let h := hipYHistory st ++ [currentY] in
        (Returned NONE,
         {| hipYHistory := h;
            baselineHipY := sumY h / inject_Z (Z.of_nat (List.length h));
            lastJumpTime := lastJumpTime st;
            lastGestureTime := lastGestureTime st |})
      else
        let baseline :=
          if Qltb (Qabs (currentY - baselineHipY st)) 0.05
          then baselineHipY st + (currentY - baselineHipY st) * 0.05
          else baselineHipY st in
        let jumpDiff := baseline - currentY in
        let timeSinceLastGesture := timestamp - lastGestureTime st in
        if Qgtb jumpDiff JUMP_THRESHOLD_Y
           && (Qgtb (timestamp - lastJumpTime st) JUMP_COOLDOWN
               && Qgtb timeSinceLastGesture LANE_CHANGE_COOLDOWN) then
          (Returned JUMP,
           {| hipYHistory := hipYHistory st; baselineHipY := baseline;
              lastJumpTime := timestamp;
              lastGestureTime := lastGestureTime st |})
        else
          let st1 :=
            {| hipYHistory := hipYHistory st; baselineHipY := baseline;
               lastJumpTime := lastJumpTime st;
               lastGestureTime := lastGestureTime st |} in
          if Qltb timeSinceLastGesture LANE_CHANGE_COOLDOWN then
            (Returned NONE, st1)
          else
            match nose with
            | None => (TypeError, st1)
            | Some n =>
              if Qgtb (lm_x n) LEAN_THRESHOLD_LEFT then
                (Returned LEFT,
                 {| hipYHistory := hipYHistory st; baselineHipY := baseline;
                    lastJumpTime := lastJumpTime st;
                    lastGestureTime := timestamp |})
              else if Qltb (lm_x n) LEAN_THRESHOLD_RIGHT then
                (Returned RIGHT,
                 {| hipYHistory := hipYHistory st; baselineHipY := baseline;
                    lastJumpTime := lastJumpTime st;
                    lastGestureTime := timestamp |})
              else (Returned NONE, st1)
            end
    | _, _, _, _ => (TypeError, st)
    end
  end.

(** ** Game engine (GameEngine.tsx) *)

(** *** Input handling: the gesture is applied to the player *)

Definition applyGesture (gesture : Gesture) (now : Q) (p : Player3D) : Player3D :=
  match gesture with
  | JUMP =>
    if negb (isJumping p) then
      {| lane := lane p; isJumping := true; jumpStartTime := now;
         yPosition := yPosition p |}
    else p
  | LEFT =>
    let currentLane := lane p in
    if (currentLane >? 0)%Z then
      {| lane := (currentLane - 1)%Z; isJumping := isJumping p;
         jumpStartTime := jumpStartTime p; yPosition := yPosition p |}
    else p
  | RIGHT =>
    let currentLane := lane p in
    if (currentLane <? 2)%Z then
      {| lane := (currentLane + 1)%Z; isJumping := isJumping p;
         jumpStartTime := jumpStartTime p; yPosition := yPosition p |}
    else p
  | NONE => p
  end.

(** *** Values drawn from [Math.random()] *)

(** The draws of one [spawnDecoration] call, in program order.  [r_z] is
    drawn by the caller for the depth jitter; [r_id] is the string
    [Math.random().toString()]; [r_rotation] is the angle
    [Math.random() * Math.PI * 2].  The draws for the mesh scale do not
    reach the game state. *)
Record DecorationDraw := mkDecorationDraw {
  r_z : Q;
  r_side : Q;
  r_offset : Q;
  r_kind : Q;
  r_id : string;
  r_rotation : Q
}.

(** The draws of one [spawnObstacle] call. *)
Record ObstacleDraw := mkObstacleDraw {
  r_lane : Q;
  r_oid : string
}.

(** What one call of [updateGameLogic] reads from its environment:
    the random draws of the two decorations and of the obstacle it may
    spawn, and the value [performance.now()] returns inside the collision
    branch while the [i]-th obstacle is visited. *)
Record TickInput := mkTickInput {
  decor1 : DecorationDraw;
  decor2 : DecorationDraw;
  obstacleDraw : ObstacleDraw;
  perfNow : nat -> Q
}.

(** *** Spawning *)

Definition spawnDecoration (z : Q) (r : DecorationDraw)
    (decorations : list Decoration3D) : list Decoration3D :=
  let isLeft := Qgtb (r_side r) 0.5 in
  let baseOffset := 8 in
  let randomOffset := r_offset r * 50 in
  let x := if isLeft then - (baseOffset + randomOffset)
           else baseOffset + randomOffset in
  let rand := r_kind r in
  let type := if Qgtb rand 0.75 then tree
              else if Qgtb rand 0.4 then flower
              else grass in
  let id := r_id r in
  decorations ++
    [{| d_id := id; d_x := x; d_z := z; d_type := type;
        rotation := r_rotation r |}].

Definition spawnObstacle (z : Q) (r : ObstacleDraw)
    (obstacles : list Obstacle3D) : list Obstacle3D :=
  let lane := Qfloor (r_lane r * 3) in
  let id := r_oid r in
  obstacles ++
    [{| o_id := id; o_lane := lane; o_z := z; o_type := lava_block;
        passed := false |}].

(** *** Difficulty *)

Definition speedOfScore (score : Z) : Q :=
  Qmin MAX_SPEED (START_SPEED + inject_Z score / 50).

(** *** Jump physics *)

Definition jumpPhysics (time : Q) (player : Player3D) : Player3D :=
  if isJumping player then
    let jumpProgress := (time - jumpStartTime player) / 1000 in
    if Qltb jumpProgress JUMP_DURATION then
      let t := jumpProgress / JUMP_DURATION in
      {| lane := lane player; isJumping := true;
         jumpStartTime := jumpStartTime player;
         yPosition := JUMP_HEIGHT * 4 * t * (1 - t) |}
    else
      {| lane := lane player; isJumping := false;
         jumpStartTime := jumpStartTime player; yPosition := 0 |}
  else player.

(** *** Decorations: advance and cull *)

(** [ids.includes(id)] *)
Definition includes (ids : list string) (id : string) : bool :=
  existsb (String.eqb id) ids.

Definition advanceDecoration (speed dt : Q) (dec : Decoration3D) : Decoration3D :=
  {| d_id := d_id dec; d_x := d_x dec; d_z := d_z dec + speed * dt;
     d_type := d_type dec; rotation := rotation dec |}.

Definition moveDecorations (speed dt : Q) (decorations : list Decoration3D)
    : list Decoration3D :=
  let moved := map (advanceDecoration speed dt) decorations in
  let decorsToRemove := map d_id (filter (fun dec => Qgtb (d_z dec) 20) moved) in
  filter (fun d => negb (includes decorsToRemove (d_id d))) moved.

(** *** Obstacles: advance, collide, score, cull *)

(** The update passed to [setGameState] on a hit.  It is applied at once;
    [scoreNow] is [scoreRef.current] at that point. *)
Definition loseLife (scoreNow : Z) (prev : GameState) : GameState :=
  let newLives := (lives prev - 1)%Z in
  if (newLives <=? 0)%Z then
    {| isPlaying := isPlaying prev; isPaused := isPaused prev;
       score := scoreNow; gameOver := true; speed := speed prev;
       cameraReady := cameraReady prev; lastLaneChange := lastLaneChange prev;
       lives := 0 |}
  else
    {| isPlaying := isPlaying prev; isPaused := isPaused prev;
       score := score prev; gameOver := gameOver prev; speed := speed prev;
       cameraReady := cameraReady prev; lastLaneChange := lastLaneChange prev;
       lives := newLives |}.

(** The collision test of the loop body, on the obstacle already moved. *)
Definition collides (player : Player3D) (obs : Obstacle3D) : bool :=
  if Qgtb (o_z obs) (-1) && Qltb (o_z obs) 1 then
    if (o_lane obs =? lane player)%Z then
      if Qltb (yPosition player) 1.1 then true else false
    else false
  else false.

(** What the obstacle loop mutates besides the obstacle it visits. *)
Record LoopVars := mkLoopVars {
  v_score : Z;               (* scoreRef.current *)
  v_lastHit : Q;             (* lastHitTimeRef.current *)
  v_game : GameState;        (* the React state, through setGameState *)
  v_remove : list string     (* obstaclesToRemove *)
}.

Definition moveObstacle (speed dt : Q) (obs : Obstacle3D) : Obstacle3D :=
  {| o_id := o_id obs; o_lane := o_lane obs; o_z := o_z obs + speed * dt;
     o_type := o_type obs; passed := passed obs |}.

Definition markPassed (obs : Obstacle3D) : Obstacle3D :=
  {| o_id := o_id obs; o_lane := o_lane obs; o_z := o_z obs;
     o_type := o_type obs; passed := true |}.

(** One iteration of [obstaclesRef.current.forEach]; [now] is the clock
    value read in the collision branch. *)
Definition obstacleBody (player : Player3D) (speed dt now : Q)
    (obs : Obstacle3D) (v : LoopVars) : Obstacle3D * LoopVars :=
  let obs := moveObstacle speed dt obs in
  let v :=
    if collides player obs then
      if Qgtb (now - v_lastHit v) INVINCIBILITY_DURATION then
        {| v_score := v_score v; v_lastHit := now;
           v_game := loseLife (v_score v) (v_game v);
           v_remove := v_remove v |}
      else v
    else v in
  if Qgtb (o_z obs) 5 then
    if negb (passed obs) then
      (markPassed obs,
       {| v_score := (v_score v + 10)%Z; v_lastHit := v_lastHit v;
          v_game := v_game v; v_remove := v_remove v ++ [o_id obs] |})
    else
      (obs,
       {| v_score := v_score v; v_lastHit := v_lastHit v;
          v_game := v_game v; v_remove := v_remove v ++ [o_id obs] |})
  else (obs, v).

Fixpoint obstacleLoop (player : Player3D) (speed dt : Q) (clock : nat -> Q)
    (i : nat) (obstacles : list Obstacle3D) (v : LoopVars)
    : list Obstacle3D * LoopVars :=
  match obstacles with
  | [] => ([], v)
  | obs :: rest =>
    let '(obs', v1) := obstacleBody player speed dt (clock i) obs v in
    let '(rest', v2) := obstacleLoop player speed dt clock (S i) rest v1 in
    (obs' :: rest', v2)
  end.

(** *** The engine: React state, refs and the classifier's variables *)

Record Engine := mkEngine {
  gameState : GameState;                 (* App's useState *)
  poseData : option (option Landmarks);  (* App's poseData; its poseLandmarks *)
  lastHitTimeRef : Q;
  playerStateRef : Player3D;
  obstaclesRef : list Obstacle3D;
  decorationsRef : list Decoration3D;
  speedRef : Q;
  scoreRef : Z;
  lastTimeRef : Q;
  lastSpawnTimeRef : Q;
  lastDecorSpawnTimeRef : Q;
  isPlayingRef : bool;
  isPausedRef : bool;
  gestureVars : GestureVars
}.

(** *** One tick *)

Definition updateGameLogic (dt time : Q) (inp : TickInput) (e : Engine) : Engine :=
  (* 1. Difficulty *)
  let speed := speedOfScore (scoreRef e) in
  (* 3. Player movement: jump physics *)
  let player := jumpPhysics time (playerStateRef e) in
  (* 4. Spawn and move the environment *)
  let spawnDecor :=
    Qgtb (time - lastDecorSpawnTimeRef e)
         (SPAWN_INTERVAL_BASE * 1000 / (speed / 15) / 8) in
  let decorations :=
    if spawnDecor then
      spawnDecoration (SPAWN_DISTANCE - r_z (decor2 inp) * 20) (decor2 inp)
        (spawnDecoration (SPAWN_DISTANCE - r_z (decor1 inp) * 20) (decor1 inp)
           (decorationsRef e))
    else decorationsRef e in
  let lastDecorSpawnTime :=
    if spawnDecor then time else lastDecorSpawnTimeRef e in
  let decorations := moveDecorations speed dt decorations in
  (* 5. Obstacle logic *)
  let spawnObs :=
    Qgtb (time - lastSpawnTimeRef e)
         (SPAWN_INTERVAL_BASE * 1000 / (speed / 15)) in
  let obstacles :=
    if spawnObs then spawnObstacle SPAWN_DISTANCE (obstacleDraw inp) (obstaclesRef e)
    else obstaclesRef e in
  let lastSpawnTime := if spawnObs then time else lastSpawnTimeRef e in
  let '(obstacles, v) :=
    obstacleLoop player speed dt (perfNow inp) 0 obstacles
      {| v_score := scoreRef e; v_lastHit := lastHitTimeRef e;
         v_game := gameState e; v_remove := [] |} in
  let obstaclesToRemove := v_remove v in
  {| gameState := v_game v;
     poseData := poseData e;
     lastHitTimeRef := v_lastHit v;
     playerStateRef := player;
     obstaclesRef :=
       filter (fun o => negb (includes obstaclesToRemove (o_id o))) obstacles;
     decorationsRef := decorations;
     speedRef := speed;
     scoreRef := v_score v;
     lastTimeRef := lastTimeRef e;
     lastSpawnTimeRef := lastSpawnTime;
     lastDecorSpawnTimeRef := lastDecorSpawnTime;
     isPlayingRef := isPlayingRef e;
     isPausedRef := isPausedRef e;
     gestureVars := gestureVars e |}.

Definition setLastTime (time : Q) (e : Engine) : Engine :=
  {| gameState := gameState e; poseData := poseData e;
     lastHitTimeRef := lastHitTimeRef e; playerStateRef := playerStateRef e;
     obstaclesRef := obstaclesRef e; decorationsRef := decorationsRef e;
     speedRef := speedRef e; scoreRef := scoreRef e;
     lastTimeRef := time;
     lastSpawnTimeRef := lastSpawnTimeRef e;
     lastDecorSpawnTimeRef := lastDecorSpawnTimeRef e;
     isPlayingRef := isPlayingRef e; isPausedRef := isPausedRef e;
     gestureVars := gestureVars e |}.

(** The callback given to [requestAnimationFrame]. *)
Definition animate (time : Q) (inp : TickInput) (e : Engine) : Engine :=
  if negb (isPlayingRef e) then e
  else if isPausedRef e then setLastTime time e
  else
    let delta := (time - lastTimeRef e) / 1000 in
    updateGameLogic delta time inp (setLastTime time e).

(** *** Effects *)

(** The clock values read while effects run after a render: two by the
    game-loop effect, one by the input effect. *)
Record Clocks := mkClocks {
  c_reset : Q;
  c_loop : Q;
  c_input : Q
}.

(** The game-loop effect (dependencies [isPlaying], [gameOver]): its
    clean-up stops the loop, its body resets every ref and starts the
    loop when a game is on. *)
Definition gameLoopEffect (c : Clocks) (e : Engine) : Engine :=
  let g := gameState e in
  let start := isPlaying g && negb (gameOver g) in
  {| gameState := g; poseData := poseData e;
     lastHitTimeRef := 0;
     playerStateRef :=
       {| lane := 1%Z; isJumping := false; jumpStartTime := 0; yPosition := 0 |};
     obstaclesRef := [];
     decorationsRef := [];
     speedRef := START_SPEED;
     scoreRef := 0;
     lastTimeRef := if start then c_loop c else c_reset c;
     lastSpawnTimeRef := c_reset c;
     lastDecorSpawnTimeRef := c_reset c;
     isPlayingRef := start;
     isPausedRef := isPausedRef e;
     gestureVars := resetGestureState |}.

(** The pause-sync effect (dependency [isPaused]). *)
Definition pauseEffect (e : Engine) : Engine :=
  {| gameState := gameState e; poseData := poseData e;
     lastHitTimeRef := lastHitTimeRef e; playerStateRef := playerStateRef e;
     obstaclesRef := obstaclesRef e; decorationsRef := decorationsRef e;
     speedRef := speedRef e; scoreRef := scoreRef e;
     lastTimeRef := lastTimeRef e;
     lastSpawnTimeRef := lastSpawnTimeRef e;
     lastDecorSpawnTimeRef := lastDecorSpawnTimeRef e;
     isPlayingRef := isPlayingRef e; isPausedRef := isPaused (gameState e);
     gestureVars := gestureVars e |}.

Definition setPlayerAndGesture (p : Player3D) (gv : GestureVars) (e : Engine)
    : Engine :=
  {| gameState := gameState e; poseData := poseData e;
     lastHitTimeRef := lastHitTimeRef e; playerStateRef := p;
     obstaclesRef := obstaclesRef e; decorationsRef := decorationsRef e;
     speedRef := speedRef e; scoreRef := scoreRef e;
     lastTimeRef := lastTimeRef e;
     lastSpawnTimeRef := lastSpawnTimeRef e;
     lastDecorSpawnTimeRef := lastDecorSpawnTimeRef e;
     isPlayingRef := isPlayingRef e; isPausedRef := isPausedRef e;
     gestureVars := gv |}.

(** The input effect (dependencies [poseData], [isPlaying], [gameOver],
    [isPaused]).  [None]: [detectGesture] threw. *)
Definition inputEffect (c : Clocks) (e : Engine) : option Engine :=
  let g := gameState e in
  match poseData e with
  | None => Some e
  | Some poseLandmarks =>
    if negb (isPlaying g) || gameOver g || isPaused g then Some e
    else
      let now := c_input c in
      match detectGesture poseLandmarks now (gestureVars e) with
      | (Returned gesture, gv) =>
        Some (setPlayerAndGesture (applyGesture gesture now (playerStateRef e)) gv e)
      | (TypeError, _) => None
      end
  end.

Definition setGame (g : GameState) (e : Engine) : Engine :=
  {| gameState := g; poseData := poseData e;
     lastHitTimeRef := lastHitTimeRef e; playerStateRef := playerStateRef e;
     obstaclesRef := obstaclesRef e; decorationsRef := decorationsRef e;
     speedRef := speedRef e; scoreRef := scoreRef e;
     lastTimeRef := lastTimeRef e;
     lastSpawnTimeRef := lastSpawnTimeRef e;
     lastDecorSpawnTimeRef := lastDecorSpawnTimeRef e;
     isPlayingRef := isPlayingRef e; isPausedRef := isPausedRef e;
     gestureVars := gestureVars e |}.

Definition setPose (p : option (option Landmarks)) (e : Engine) : Engine :=
  {| gameState := gameState e; poseData := p;
     lastHitTimeRef := lastHitTimeRef e; playerStateRef := playerStateRef e;
     obstaclesRef := obstaclesRef e; decorationsRef := decorationsRef e;
     speedRef := speedRef e; scoreRef := scoreRef e;
     lastTimeRef := lastTimeRef e;
     lastSpawnTimeRef := lastSpawnTimeRef e;
     lastDecorSpawnTimeRef := lastDecorSpawnTimeRef e;
     isPlayingRef := isPlayingRef e; isPausedRef := isPausedRef e;
     gestureVars := gestureVars e |}.

(** The effects that run after a render, in declaration order, each when
    one of its dependencies differs from the previous render ([old]).
    [poseChanged]: the render was caused by a new pose result. *)
Definition runEffects (c : Clocks) (old : GameState) (poseChanged : bool)
    (e : Engine) : option Engine :=
  let g := gameState e in
  let loopDeps :=
    negb (Bool.eqb (isPlaying old) (isPlaying g)) || negb (Bool.eqb (gameOver old) (gameOver g)) in
  let pauseDeps := negb (Bool.eqb (isPaused old) (isPaused g)) in
  let e1 := if loopDeps then gameLoopEffect c e else e in
  let e2 := if pauseDeps then pauseEffect e1 else e1 in
  if poseChanged || loopDeps || pauseDeps then inputEffect c e2 else Some e2.

(** *** Commands of the host (App.tsx) and the frame callback *)

Definition handleStart (prev : GameState) : GameState :=
  {| isPlaying := true; isPaused := false; score := 0; gameOver := false;
     speed := speed prev; cameraReady := cameraReady prev;
     lastLaneChange := lastLaneChange prev; lives := 3 |}.

Definition handleRestart (prev : GameState) : GameState :=
  {| isPlaying := true; isPaused := false; score := 0; gameOver := false;
     speed := speed prev; cameraReady := cameraReady prev;
     lastLaneChange := lastLaneChange prev; lives := 3 |}.

Definition handlePause (prev : GameState) : GameState :=
  {| isPlaying := isPlaying prev; isPaused := true; score := score prev;
     gameOver := gameOver prev; speed := speed prev;
     cameraReady := cameraReady prev; lastLaneChange := lastLaneChange prev;
     lives := lives prev |}.

Definition handleResume (prev : GameState) : GameState :=
  {| isPlaying := isPlaying prev; isPaused := false; score := score prev;
     gameOver := gameOver prev; speed := speed prev;
     cameraReady := cameraReady prev; lastLaneChange := lastLaneChange prev;
     lives := lives prev |}.

Definition onCameraReady (prev : GameState) : GameState :=
  {| isPlaying := isPlaying prev; isPaused := isPaused prev; score := score prev;
     gameOver := gameOver prev; speed := speed prev;
     cameraReady := true; lastLaneChange := lastLaneChange prev;
     lives := lives prev |}.

Inductive Command :=
| Frame (time : Q) (inp : TickInput)          (* an animation frame fires *)
| Pose (poseLandmarks : option Landmarks)     (* onPoseUpdate(results) *)
| Start
| Restart
| Pause
| Resume
| CameraReady.

(** One command followed by the render it causes and that render's
    effects.  [None]: an effect threw. *)
Definition step (c : Clocks) (cmd : Command) (e : Engine) : option Engine :=
  let old := gameState e in
  match cmd with
  | Frame time inp => runEffects c old false (animate time inp e)
  | Pose lms => runEffects c old true (setPose (Some lms) e)
  | Start => runEffects c old false (setGame (handleStart old) e)
  | Restart => runEffects c old false (setGame (handleRestart old) e)
  | Pause => runEffects c old false (setGame (handlePause old) e)
  | Resume => runEffects c old false (setGame (handleResume old) e)
  | CameraReady => runEffects c old false (setGame (onCameraReady old) e)
  end.

Fixpoint run (cmds : list (Clocks * Command)) (e : Engine) : option Engine :=
  match cmds with
  | [] => Some e
  | (c, cmd) :: rest =>
    match step c cmd e with
    | Some e' => run rest e'
    | None => None
    end
  end.

(** The engine once the components are mounted: App's initial state, the
    refs as the first run of the game-loop effect leaves them. *)
Definition initialGameState : GameState :=
  {| isPlaying := false; isPaused := false; score := 0; gameOver := false;
     speed := 0; cameraReady := false; lastLaneChange := 0; lives := 3 |}.

Definition mounted (now : Q) : Engine :=
  {| gameState := initialGameState; poseData := None;
     lastHitTimeRef := 0;
     playerStateRef :=
       {| lane := 1%Z; isJumping := false; jumpStartTime := 0; yPosition := 0 |};
     obstaclesRef := [];
     decorationsRef := [];
     speedRef := START_SPEED;
     scoreRef := 0;
     lastTimeRef := now;
     lastSpawnTimeRef := now;
     lastDecorSpawnTimeRef := now;
     isPlayingRef := false;
     isPausedRef := false;
     gestureVars := resetGestureState |}.

(** ** Notions used by the statements *)

(** The classifier fed a sequence of timestamped samples: what each call
    produced, and the variables afterwards.  The module variables persist
    across calls, whatever a call's outcome. *)
Fixpoint feed (samples : list (Q * option Landmarks)) (st : GestureVars)
    : list (Q * Outcome) * GestureVars :=
  match samples with
  | [] => ([], st)
  | (timestamp, landmarks) :: rest =>
    let '(out, st1) := detectGesture landmarks timestamp st in
    let '(outs, st2) := feed rest st1 in
    ((timestamp, out) :: outs, st2)
  end.

(** The same posture at each of the given timestamps. *)
Definition samePosture (lms : Landmarks) (timestamps : list Q)
    : list (Q * option Landmarks) :=
  map (fun t => (t, Some lms)) timestamps.

(** Torso-Y of a posture: the mean of the hip and shoulder Y coordinates. *)
Definition torsoY (leftHip rightHip leftShoulder rightShoulder : Landmark) : Q :=
  (lm_y leftHip + lm_y rightHip + lm_y leftShoulder + lm_y rightShoulder) / 4.

Definition isLean (g : Gesture) : bool :=
  match g with LEFT | RIGHT => true | _ => false end.

(** A sequence of gestures applied to the player, each at its time. *)
Definition applyGestures (gs : list (Gesture * Q)) (p : Player3D) : Player3D :=
  fold_left (fun p g => applyGesture (fst g) (snd g) p) gs p.

(** Consecutive frames with no command in between. *)
Definition frames (fs : list (Q * TickInput)) (e : Engine) : Engine :=
  fold_left (fun e f => animate (fst f) (snd f) e) fs e.

(** The obstacles the loop of a tick visits: the live ones, and the one
    spawned in this tick when the spawn interval has elapsed. *)
Definition visitedObstacles (time : Q) (inp : TickInput) (e : Engine)
    : list Obstacle3D :=
  if Qgtb (time - lastSpawnTimeRef e)
          (SPAWN_INTERVAL_BASE * 1000 / (speedOfScore (scoreRef e) / 15))
  then spawnObstacle SPAWN_DISTANCE (obstacleDraw inp) (obstaclesRef e)
  else obstaclesRef e.

(** The obstacle's depth exceeds 5 once moved by this tick. *)
Definition crosses (speed dt : Q) (obs : Obstacle3D) : bool :=
  Qgtb (o_z (moveObstacle speed dt obs)) 5.

(** What the loop body leaves of the obstacle it visits. *)
Definition visitObstacle (speed dt : Q) (obs : Obstacle3D) : Obstacle3D :=
  let moved := moveObstacle speed dt obs in
  if crosses speed dt obs then
    if negb (passed moved) then markPassed moved else moved
  else moved.


(** Ids of everything live. *)
Definition liveIds (e : Engine) : list string :=
  map o_id (obstaclesRef e) ++ map d_id (decorationsRef e).

(** The id strings drawn by the frames of a command sequence. *)
Definition drawnIdsOf (cmd : Command) : list string :=
  match cmd with
  | Frame _ inp => [r_id (decor1 inp); r_id (decor2 inp); r_oid (obstacleDraw inp)]
  | _ => []
  end.

Definition drawnIds (cmds : list (Clocks * Command)) : list string :=
  flat_map (fun c => drawnIdsOf (snd c)) cmds.

(** Commands other than the two that start a game. *)
Definition notRestart (cmd : Command) : bool :=
  match cmd with Start | Restart => false | _ => true end.

(** Facts that hold of the engine after every command. *)
Record SessionInv (e : Engine) : Prop := mkSessionInv {
  inv_playing : isPlayingRef e = isPlaying (gameState e) && negb (gameOver (gameState e));
  inv_lives_on : gameOver (gameState e) = false -> (1 <= lives (gameState e) <= 3)%Z;
  inv_lives_over : gameOver (gameState e) = true -> lives (gameState e) = 0%Z;
  inv_unpassed : forall o, In o (obstaclesRef e) -> passed o = false;
  inv_lane : (0 <= lane (playerStateRef e) <= 2)%Z
}.

(** The gameplay part of the engine: everything but the pause and camera
    flags and the latest pose. *)
Definition gameplay (e : Engine) :=
  (score (gameState e), lives (gameState e), gameOver (gameState e),
   isPlaying (gameState e),
   (scoreRef e, speedRef e, lastHitTimeRef e),
   (playerStateRef e, obstaclesRef e, decorationsRef e),
   gestureVars e).

(** What a hit may change in the React state, any number of times. *)
Inductive hits : GameState -> GameState -> Prop :=
| hits_none g : hits g g
| hits_more g g' scoreNow : hits g g' -> hits g (loseLife scoreNow g').

(** Facts about score and speed that every frame keeps. *)
Record ScoreInv (e : Engine) : Prop := mkScoreInv {
  inv_score : (0 <= scoreRef e)%Z;
  inv_speed_lo : START_SPEED <= speedRef e;
  inv_speed_hi : speedRef e <= speedOfScore (scoreRef e)
}.

(** Commands that neither start a game nor touch the pause flag. *)
Definition frameOrPose (cmd : Command) : bool :=
  match cmd with Frame _ _ | Pose _ | CameraReady => true | _ => false end.

(** A pose result the classifier can read: no landmark list at all, or a
    list with the nose, both shoulders and both hips. *)
Definition completePose (poseLandmarks : option Landmarks) : bool :=
  match poseLandmarks with
  | None => true
  | Some lms =>
    match landmarkAt lms 0, landmarkAt lms 11, landmarkAt lms 12,
          landmarkAt lms 23, landmarkAt lms 24 with
    | Some _, Some _, Some _, Some _, Some _ => true
    | _, _, _, _, _ => false
    end
  end.

Definition completePoseCommand (cmd : Command) : bool :=
  match cmd with Pose pl => completePose pl | _ => true end.

(** The lane draw of a frame is a value of [Math.random()]: in [0, 1). *)
Definition laneDrawInRange (cmd : Command) : Prop :=
  match cmd with
  | Frame _ inp => 0 <= r_lane (obstacleDraw inp) /\ r_lane (obstacleDraw inp) < 1
  | _ => True
  end.

(** The engine with other decorations and another decoration timer. *)
Definition setDecorations (decorations : list Decoration3D) (lastDecor : Q)
    (e : Engine) : Engine :=
  {| gameState := gameState e; poseData := poseData e;
     lastHitTimeRef := lastHitTimeRef e; playerStateRef := playerStateRef e;
     obstaclesRef := obstaclesRef e; decorationsRef := decorations;
     speedRef := speedRef e; scoreRef := scoreRef e;
     lastTimeRef := lastTimeRef e;
     lastSpawnTimeRef := lastSpawnTimeRef e;
     lastDecorSpawnTimeRef := lastDecor;
     isPlayingRef := isPlayingRef e; isPausedRef := isPausedRef e;
     gestureVars := gestureVars e |}.

(** The draws of a tick with other decoration draws. *)
Definition setDecorDraws (d1 d2 : DecorationDraw) (inp : TickInput) : TickInput :=
  {| decor1 := d1; decor2 := d2; obstacleDraw := obstacleDraw inp;
     perfNow := perfNow inp |}.

(** [(lane - 1) * LANE_WIDTH]: the world x of a lane, for the player's
    target and for an obstacle's mesh alike. *)
Definition laneX (lane : Lane) : Q := (inject_Z lane - 1) * LANE_WIDTH.

(** The lane lerp of a tick:
    [position.x += (targetX - position.x) * 10 * dt]. *)
Definition lerpX (x targetX dt : Q) : Q := x + (targetX - x) * 10 * dt.

(** ** Concrete inputs used as examples *)

Definition exampleDecor (id : string) : DecorationDraw :=
  {| r_z := 0.5; r_side := 0.7; r_offset := 0.1; r_kind := 0.9; r_id := id;
     r_rotation := 1 |}.

(** A tick's draws with the given three id strings; the clock reads
    [now] at every collision. *)
Definition exampleInput (id1 id2 id3 : string) (now : Q) : TickInput :=
  {| decor1 := exampleDecor id1; decor2 := exampleDecor id2;
     obstacleDraw := {| r_lane := 0.5; r_oid := id3 |};
     perfNow := fun _ => now |}.

Definition exampleClocks (now : Q) : Clocks :=
  {| c_reset := now; c_loop := now; c_input := now |}.

(** A running game with one obstacle just short of depth 5. *)
Definition exampleRunning : Engine :=
  {| gameState :=
       {| isPlaying := true; isPaused := false; score := 0%Z; gameOver := false;
          speed := 0; cameraReady := true; lastLaneChange := 0; lives := 3%Z |};
     poseData := None;
     lastHitTimeRef := 0;
     playerStateRef :=
       {| lane := 1%Z; isJumping := false; jumpStartTime := 0; yPosition := 0 |};
     obstaclesRef :=
       [{| o_id := "0.77"; o_lane := 1%Z; o_z := 4.9; o_type := lava_block;
           passed := false |}];
     decorationsRef := [];
     speedRef := START_SPEED;
     scoreRef := 0%Z;
     lastTimeRef := 1000;
     lastSpawnTimeRef := 1000;
     lastDecorSpawnTimeRef := 1000;
     isPlayingRef := true;
     isPausedRef := false;
     gestureVars := resetGestureState |}.

(** A full pose of 33 landmarks, all at horizontal position [noseX] and
    height [y]: the nose is at [noseX], the torso-Y is [y]. *)
Definition posture (noseX y : Q) : Landmarks :=
  repeat (Some {| lm_x := noseX; lm_y := y |}) 33.


(** [n] timestamps 33 ms apart, from [start]. *)
Definition everyFrame (start : Q) (n : nat) : list Q :=
  map (fun i => start + 33 * inject_Z (Z.of_nat i)) (seq 0 n).

(** Thirty calibration samples standing still while leaning left, then the
    torso 0.1 higher in two samples one millisecond apart. *)
Definition jumpWhileLeaning : list (Q * option Landmarks) :=
  samePosture (posture 0.7 0.5) (everyFrame 0 30)
  ++ [(1000, Some (posture 0.7 0.4)); (1001, Some (posture 0.7 0.4))].

(** Thirty calibration samples standing upright, then the torso 0.1 higher
    at 1000 ms, 1799 ms and 2000 ms. *)
Definition threeDisplacements : list (Q * option Landmarks) :=
  samePosture (posture 0.5 0.5) (everyFrame 0 30)
  ++ [(1000, Some (posture 0.5 0.4)); (1799, Some (posture 0.5 0.4));
      (2000, Some (posture 0.5 0.4))].


(** A game in which an obstacle reaches the player in each of three
    frames four seconds apart, then four more commands. *)
Definition threeHits : list (Clocks * Command) :=
  [ (exampleClocks 0, Start);
    (exampleClocks 4000, Frame 4000 (exampleInput "0.11" "0.12" "0.13" 4000));
    (exampleClocks 8000, Frame 8000 (exampleInput "0.21" "0.22" "0.23" 8000));
    (exampleClocks 12000, Frame 12000 (exampleInput "0.31" "0.32" "0.33" 12000)) ].

Definition afterGameOver : list (Clocks * Command) :=
  [ (exampleClocks 16000, Frame 16000 (exampleInput "0.41" "0.42" "0.43" 16000));
    (exampleClocks 16010, Pose (Some (posture 0.7 0.5)));
    (exampleClocks 16020, Pause);
    (exampleClocks 20000, Frame 20000 (exampleInput "0.51" "0.52" "0.53" 20000)) ].

Definition afterThreeHits : Engine :=
  match run threeHits (mounted 0) with
  | Some e => e
  | None => mounted 0
  end.

(** The same game right after the start command. *)
Definition afterStart : Engine :=
  match run (firstn 1 threeHits) (mounted 0) with
  | Some e => e
  | None => mounted 0
  end.

(** The same game two frames in, before the last hit. *)
Definition afterTwoHits : Engine :=
  match run (firstn 3 threeHits) (mounted 0) with
  | Some e => e
  | None => mounted 0
  end.

(** A game whose first frame draws the same id string for both of the
    decorations it spawns. *)
Definition sameDraw : list (Clocks * Command) :=
  [ (exampleClocks 0, Start);
    (exampleClocks 200, Frame 200 (exampleInput "0.5" "0.5" "0.9" 200)) ].

(** The classifier after thirty calibration samples standing upright. *)
Definition calibrated : GestureVars :=
  snd (feed (samePosture (posture 0.5 0.5) (everyFrame 0 30)) resetGestureState).

(** A game paused right after its start, and what follows while paused. *)
Definition pausedGame : list (Clocks * Command) :=
  [ (exampleClocks 0, Start); (exampleClocks 100, Pause) ].

Definition whilePaused : list (Clocks * Command) :=
  [ (exampleClocks 4000, Frame 4000 (exampleInput "0.11" "0.12" "0.13" 4000));
    (exampleClocks 4010, Pose (Some (posture 0.7 0.5)));
    (exampleClocks 8000, Frame 8000 (exampleInput "0.21" "0.22" "0.23" 8000)) ].

Definition afterPause : Engine :=
  match run pausedGame (mounted 0) with
  | Some e => e
  | None => mounted 0
  end.

(** ** Basic facts *)

Lemma Qltb_true x y : Qltb x y = true <-> x < y.
Proof.
  unfold Qltb. rewrite negb_true_iff. split.
  - intros H. apply Qnot_le_lt. intros Hle.
    apply Qle_bool_iff in Hle. congruence.
  - intros H. destruct (Qle_bool y x) eqn:E; [|reflexivity].
    apply Qle_bool_iff in E. exfalso. apply (Qlt_not_le _ _ H E).
Qed.

Lemma Qltb_false x y : Qltb x y = false <-> y <= x.
Proof.
  unfold Qltb. rewrite negb_false_iff. apply Qle_bool_iff.
Qed.

Lemma Qgtb_true x y : Qgtb x y = true <-> y < x.
Proof. apply Qltb_true. Qed.

Lemma Qgtb_false x y : Qgtb x y = false <-> x <= y.
Proof. apply Qltb_false. Qed.

(** ** Lanes *)

Lemma applyGesture_lane_range g now p :
  (0 <= lane p <= 2)%Z -> (0 <= lane (applyGesture g now p) <= 2)%Z.
Proof.
  intros H. destruct g; simpl; try assumption.
  - destruct (lane p >? 0)%Z eqn:E; simpl; [|assumption].
    apply Z.gtb_lt in E. lia.
  - destruct (lane p <? 2)%Z eqn:E; simpl; [|assumption].
    apply Z.ltb_lt in E. lia.
  - destruct (negb (isJumping p)); simpl; assumption.
Qed.

Lemma applyGestures_lane_range gs : forall p,
  (0 <= lane p <= 2)%Z -> (0 <= lane (applyGestures gs p) <= 2)%Z.
Proof.
  unfold applyGestures.
  induction gs as [|g gs IH]; intros p H; simpl; [assumption|].
  apply IH. now apply applyGesture_lane_range.
Qed.

Lemma applyGesture_LEFT now p :
  lane (applyGesture LEFT now p) = if (lane p >? 0)%Z then (lane p - 1)%Z else lane p.
Proof. simpl. now destruct (lane p >? 0)%Z. Qed.

Lemma applyGesture_RIGHT now p :
  lane (applyGesture RIGHT now p) = if (lane p <? 2)%Z then (lane p + 1)%Z else lane p.
Proof. simpl. now destruct (lane p <? 2)%Z. Qed.

Lemma repeat_LEFT_at_0 n now : forall p,
  lane p = 0%Z -> lane (applyGestures (repeat (LEFT, now) n) p) = 0%Z.
Proof.
  unfold applyGestures.
  induction n as [|n IH]; intros p H; simpl; [assumption|].
  apply IH. rewrite H. simpl. exact H.
Qed.

Lemma repeat_RIGHT_at_2 n now : forall p,
  lane p = 2%Z -> lane (applyGestures (repeat (RIGHT, now) n) p) = 2%Z.
Proof.
  unfold applyGestures.
  induction n as [|n IH]; intros p H; simpl; [assumption|].
  apply IH. rewrite H. simpl. exact H.
Qed.

(** ** Difficulty *)

Lemma speedOfScore_uncapped s :
  (s <= 1250)%Z -> speedOfScore s == START_SPEED + inject_Z s / 50.
Proof.
  intros H. unfold speedOfScore. apply Q.min_r.
  unfold MAX_SPEED, START_SPEED.
  assert (inject_Z s <= inject_Z 1250) by (rewrite <- Zle_Qle; exact H).
  assert (E : inject_Z 1250 == 1250) by reflexivity.
  rewrite E in H0.
  assert (inject_Z s / 50 <= 25).
  { apply Qle_shift_div_r; [reflexivity|]. lra. }
  lra.
Qed.

Lemma speedOfScore_capped s :
  (1250 <= s)%Z -> speedOfScore s == MAX_SPEED.
Proof.
  intros H. unfold speedOfScore. apply Q.min_l.
  unfold MAX_SPEED, START_SPEED.
  assert (inject_Z 1250 <= inject_Z s) by (rewrite <- Zle_Qle; exact H).
  assert (E : inject_Z 1250 == 1250) by reflexivity.
  rewrite E in H0.
  assert (25 <= inject_Z s / 50).
  { apply Qle_shift_div_l; [reflexivity|]. lra. }
  lra.
Qed.

Lemma updateGameLogic_speed dt time inp e :
  speedRef (updateGameLogic dt time inp e) = speedOfScore (scoreRef e).
Proof.
  unfold updateGameLogic.
  destruct (obstacleLoop _ _ _ _ _ _ _) as [obs v]. reflexivity.
Qed.

(** C4. Every tick sets the speed to min(MAX_SPEED, START_SPEED + score/50)
    of the score it finds, whatever the time, the time step and the other
    inputs are: two ticks that find the same score set the same speed.
    With START_SPEED = 15 and MAX_SPEED = 40 the speed is 15 at score 0,
    25 at score 500, and 40, not 41.25, at score 1300. *)
Theorem speed_from_score :
  (forall dt time inp e,
     speedRef (updateGameLogic dt time inp e)
     = Qmin MAX_SPEED (START_SPEED + inject_Z (scoreRef e) / 50))
  /\ (forall dt1 time1 inp1 e1 dt2 time2 inp2 e2,
        scoreRef e1 = scoreRef e2 ->
        speedRef (updateGameLogic dt1 time1 inp1 e1)
        = speedRef (updateGameLogic dt2 time2 inp2 e2))
  /\ START_SPEED == 15 /\ MAX_SPEED == 40
  /\ speedOfScore 0 == 15
  /\ speedOfScore 500 == 25
  /\ speedOfScore 1300 == 40
  /\ ~ speedOfScore 1300 == 41.25.
Proof.
  split; [intros; apply updateGameLogic_speed|].
  split.
  { intros. rewrite !updateGameLogic_speed. congruence. }
  repeat split; try reflexivity.
  intros H. vm_compute in H. discriminate.
Qed.

(** ** Collision and invincibility *)

Lemma collides_iff player obs :
  collides player obs = true <->
  o_lane obs = lane player /\ yPosition player < 1.1
  /\ -1 < o_z obs /\ o_z obs < 1.
Proof.
  unfold collides. split.
  - destruct (Qgtb (o_z obs) (-1)) eqn:E1; simpl; [|discriminate].
    destruct (Qltb (o_z obs) 1) eqn:E2; simpl; [|discriminate].
    destruct (o_lane obs =? lane player)%Z eqn:E3; [|discriminate].
    destruct (Qltb (yPosition player) 1.1) eqn:E4; [|discriminate].
    intros _. apply Qgtb_true in E1. apply Qltb_true in E2, E4.
    apply Z.eqb_eq in E3. auto.
  - intros (Hl & Hy & Hz1 & Hz2).
    apply Qgtb_true in Hz1. apply Qltb_true in Hz2, Hy.
    apply Z.eqb_eq in Hl. rewrite Hz1, Hz2, Hl, Hy. reflexivity.
Qed.

Lemma loseLife_lives scoreNow g :
  (0 < lives g)%Z -> lives (loseLife scoreNow g) = (lives g - 1)%Z.
Proof.
  intros H. unfold loseLife.
  destruct (lives g - 1 <=? 0)%Z eqn:E; simpl; [|reflexivity].
  apply Z.leb_le in E. lia.
Qed.

Lemma loseLife_gameOver scoreNow g :
  (lives g <= 1)%Z ->
  gameOver (loseLife scoreNow g) = true /\ lives (loseLife scoreNow g) = 0%Z.
Proof.
  intros H. unfold loseLife.
  destruct (lives g - 1 <=? 0)%Z eqn:E; simpl; [auto|].
  apply Z.leb_gt in E. lia.
Qed.

(** The hit part of the loop body: what happens to lives and to the
    invincibility window. *)
Lemma obstacleBody_hit player speed dt now obs v :
  let v' := snd (obstacleBody player speed dt now obs v) in
  v_game v' =
    (if collides player (moveObstacle speed dt obs)
        && Qgtb (now - v_lastHit v) INVINCIBILITY_DURATION
     then loseLife (v_score v) (v_game v) else v_game v)
  /\ v_lastHit v' =
    (if collides player (moveObstacle speed dt obs)
        && Qgtb (now - v_lastHit v) INVINCIBILITY_DURATION
     then now else v_lastHit v).
Proof.
  unfold obstacleBody.
  destruct (collides player (moveObstacle speed dt obs));
    destruct (Qgtb (now - v_lastHit v) INVINCIBILITY_DURATION);
    destruct (Qgtb (o_z (moveObstacle speed dt obs)) 5);
    destruct (negb (passed (moveObstacle speed dt obs))); simpl; auto.
Qed.

(** In the loop body of a tick the collision branch is taken exactly
    when the moved obstacle is in the player's lane, the player's height is
    below 1.1 and the obstacle's depth is strictly between -1 and 1.  A
    collision outside the invincibility window takes exactly one life and
    starts a new window at the clock value read; a collision inside the
    window, and in particular any collision within INVINCIBILITY_DURATION
    of the hit just scored, changes neither lives nor the window; without
    a collision nothing changes either. *)
Lemma obstacleBody_resolution
    (player : Player3D) (speed dt now : Q) (obs : Obstacle3D) (v : LoopVars) :
  let moved := moveObstacle speed dt obs in
  let v' := snd (obstacleBody player speed dt now obs v) in
  (0 < lives (v_game v))%Z ->
  (collides player moved = true <->
     o_lane moved = lane player /\ yPosition player < 1.1
     /\ -1 < o_z moved /\ o_z moved < 1)
  /\ (collides player moved = true ->
      now - v_lastHit v > INVINCIBILITY_DURATION ->
      lives (v_game v') = (lives (v_game v) - 1)%Z /\ v_lastHit v' = now
      /\ forall speed2 dt2 now2 obs2,
           collides player (moveObstacle speed2 dt2 obs2) = true ->
           now2 - now <= INVINCIBILITY_DURATION ->
           let v'' := snd (obstacleBody player speed2 dt2 now2 obs2 v') in
           lives (v_game v'') = lives (v_game v') /\ v_lastHit v'' = now)
  /\ (collides player moved = true ->
      now - v_lastHit v <= INVINCIBILITY_DURATION ->
      v_game v' = v_game v /\ v_lastHit v' = v_lastHit v)
  /\ (collides player moved = false ->
      v_game v' = v_game v /\ v_lastHit v' = v_lastHit v).
Proof.
  intros moved v' Hlives.
  destruct (obstacleBody_hit player speed dt now obs v) as [Hg Hh].
  fold moved in Hg, Hh. fold v' in Hg, Hh.
  split; [apply collides_iff|].
  split.
  { intros Hc Hw. apply Qgtb_true in Hw.
    rewrite Hc, Hw in Hg, Hh. simpl in Hg, Hh.
    split; [rewrite Hg; now apply loseLife_lives|].
    split; [exact Hh|].
    intros speed2 dt2 now2 obs2 Hc2 Hw2 v''.
    destruct (obstacleBody_hit player speed2 dt2 now2 obs2 v') as [Hg2 Hh2].
    fold v'' in Hg2, Hh2.
    assert (E : Qgtb (now2 - v_lastHit v') INVINCIBILITY_DURATION = false).
    { apply Qgtb_false. rewrite Hh. exact Hw2. }
    rewrite Hc2, E in Hg2, Hh2. simpl in Hg2, Hh2.
    rewrite Hg2, Hh2. auto. }
  split.
  { intros Hc Hw. apply Qgtb_false in Hw.
    rewrite Hc, Hw in Hg, Hh. simpl in Hg, Hh. auto. }
  intros Hc. rewrite Hc in Hg, Hh. simpl in Hg, Hh. auto.
Qed.

(** ** Scoring and culling of obstacles *)

Lemma includes_In ids id : includes ids id = true <-> In id ids.
Proof.
  unfold includes. rewrite existsb_exists. split.
  - intros (x & Hin & Heq). apply String.eqb_eq in Heq. now subst.
  - intros H. exists id. split; [assumption|apply String.eqb_refl].
Qed.

Lemma obstacleBody_score player speed dt now obs v :
  let '(obs', v') := obstacleBody player speed dt now obs v in
  obs' = visitObstacle speed dt obs
  /\ v_score v' =
     (v_score v + if crosses speed dt obs && negb (passed obs) then 10 else 0)%Z
  /\ v_remove v' =
     v_remove v ++ (if crosses speed dt obs then [o_id obs] else []).
Proof.
  unfold obstacleBody, visitObstacle, crosses.
  destruct (collides player (moveObstacle speed dt obs));
    destruct (Qgtb (now - v_lastHit v) INVINCIBILITY_DURATION);
    destruct (Qgtb (o_z (moveObstacle speed dt obs)) 5);
    simpl; destruct (passed obs); simpl;
    rewrite ?Z.add_0_r, ?app_nil_r; auto.
Qed.

Lemma obstacleLoop_score player speed dt clock obstacles : forall i v,
  let '(obstacles', v') := obstacleLoop player speed dt clock i obstacles v in
  obstacles' = map (visitObstacle speed dt) obstacles
  /\ v_score v' =
     (v_score v
      + 10 * Z.of_nat (List.length
          (filter (fun o => crosses speed dt o && negb (passed o)) obstacles)))%Z
  /\ v_remove v' = v_remove v ++ map o_id (filter (crosses speed dt) obstacles).
Proof.
  induction obstacles as [|obs rest IH]; intros i v;
    cbn [obstacleLoop map filter].
  - cbn [List.length map]. rewrite app_nil_r.
    split; [reflexivity|]. split; [lia|reflexivity].
  - pose proof (obstacleBody_score player speed dt (clock i) obs v) as Hb.
    destruct (obstacleBody player speed dt (clock i) obs v) as [obs' v1].
    destruct Hb as (Ho & Hs & Hr).
    specialize (IH (S i) v1).
    destruct (obstacleLoop player speed dt clock (S i) rest v1) as [rest' v2].
    destruct IH as (Ho2 & Hs2 & Hr2).
    split; [congruence|].
    split.
    + rewrite Hs2, Hs.
      destruct (crosses speed dt obs && negb (passed obs));
        cbn [List.length]; lia.
    + rewrite Hr2, Hr. rewrite <- app_assoc.
      destruct (crosses speed dt obs); cbn [map]; reflexivity.
Qed.

Lemma visitedObstacles_unpassed time inp e :
  (forall o, In o (obstaclesRef e) -> passed o = false) ->
  forall o, In o (visitedObstacles time inp e) -> passed o = false.
Proof.
  intros H o. unfold visitedObstacles, spawnObstacle.
  destruct (Qgtb _ _); [|apply H].
  rewrite in_app_iff. intros [Hin|[Heq|[]]]; [now apply H|].
  now subst.
Qed.

Lemma filter_unpassed (f : Obstacle3D -> bool) l :
  (forall o, In o l -> passed o = false) ->
  filter (fun o => f o && negb (passed o)) l = filter f l.
Proof.
  intros H. apply filter_ext_in. intros o Hin.
  rewrite (H o Hin). apply andb_true_r.
Qed.

(** The obstacles and the score a tick leaves, in terms of the visited
    obstacles. *)
Lemma updateGameLogic_obstacles dt time inp e :
  let sp := speedOfScore (scoreRef e) in
  let visited := visitedObstacles time inp e in
  let ids := map o_id (filter (crosses sp dt) visited) in
  obstaclesRef (updateGameLogic dt time inp e)
  = filter (fun o => negb (includes ids (o_id o))) (map (visitObstacle sp dt) visited)
  /\ scoreRef (updateGameLogic dt time inp e)
  = (scoreRef e + 10 * Z.of_nat (List.length
       (filter (fun o => crosses sp dt o && negb (passed o)) visited)))%Z.
Proof.
  intros sp visited ids. unfold updateGameLogic.
  fold sp. unfold visitedObstacles in visited. fold sp in visited.
  match goal with
  | |- context [obstacleLoop ?p ?s ?d ?c ?i ?l ?v] =>
    pose proof (obstacleLoop_score p s d c l i v) as H;
    destruct (obstacleLoop p s d c i l v) as [obs' v']
  end.
  simpl in H. destruct H as (Ho & Hs & Hr). simpl.
  subst obs'. rewrite Hr, Hs. split; reflexivity.
Qed.

Lemma visitObstacle_id speed dt o : o_id (visitObstacle speed dt o) = o_id o.
Proof.
  unfold visitObstacle.
  destruct (crosses speed dt o); [destruct (negb _)|]; reflexivity.
Qed.

(** ** Cooldowns of the classifier *)

(** One call: the two timestamps never go back; a JUMP needs both
    cooldowns strictly elapsed and stamps [lastJumpTime]; a lean needs the
    lane cooldown elapsed and stamps [lastGestureTime]. *)
Lemma detectGesture_cooldown landmarks t st :
  let r := detectGesture landmarks t st in
  lastJumpTime st <= lastJumpTime (snd r)
  /\ lastGestureTime st <= lastGestureTime (snd r)
  /\ (fst r = Returned JUMP ->
      lastJumpTime (snd r) = t /\ JUMP_COOLDOWN < t - lastJumpTime st
      /\ LANE_CHANGE_COOLDOWN < t - lastGestureTime st)
  /\ (fst r = Returned LEFT \/ fst r = Returned RIGHT ->
      lastGestureTime (snd r) = t
      /\ LANE_CHANGE_COOLDOWN <= t - lastGestureTime st).
Proof.
  assert (Hno : forall (o : Outcome) (s : GestureVars) (P Q : Prop),
             o <> Returned JUMP -> o <> Returned LEFT -> o <> Returned RIGHT ->
             lastJumpTime st <= lastJumpTime s ->
             lastGestureTime st <= lastGestureTime s ->
             lastJumpTime st <= lastJumpTime (snd (o, s))
             /\ lastGestureTime st <= lastGestureTime (snd (o, s))
             /\ (fst (o, s) = Returned JUMP -> P)
             /\ (fst (o, s) = Returned LEFT \/ fst (o, s) = Returned RIGHT -> Q)).
  { intros o s P Q' H1 H2 H3 H4 H5. simpl.
    split; [assumption|]. split; [assumption|].
    split; [intros E; contradiction|intros [E|E]; contradiction]. }
  unfold detectGesture.
  destruct landmarks as [lms|]; cbn zeta;
    [|apply Hno; try discriminate; apply Qle_refl].
  destruct (landmarkAt lms 23), (landmarkAt lms 24), (landmarkAt lms 11),
    (landmarkAt lms 12);
    try (apply Hno; try discriminate; apply Qle_refl).
  destruct (_ <? 30)%nat;
    [apply Hno; try discriminate; apply Qle_refl|].
  match goal with
  | |- context [if ?a && (?b && ?c) then _ else _] =>
    destruct a eqn:Ea; destruct b eqn:Eb; destruct c eqn:Ec
  end; cbn [andb].
  { apply Qgtb_true in Eb, Ec. simpl.
    split; [unfold JUMP_COOLDOWN in Eb; lra|].
    split; [apply Qle_refl|].
    split; [intros _; auto|intros [E|E]; discriminate]. }
  all: destruct (Qltb (t - lastGestureTime st) LANE_CHANGE_COOLDOWN) eqn:El;
    [apply Hno; try discriminate; apply Qle_refl|].
  all: apply Qltb_false in El.
  all: destruct (landmarkAt lms 0) as [n|];
    [|apply Hno; try discriminate; apply Qle_refl].
  all: destruct (Qgtb (lm_x n) LEAN_THRESHOLD_LEFT);
    [|destruct (Qltb (lm_x n) LEAN_THRESHOLD_RIGHT);
      [|apply Hno; try discriminate; apply Qle_refl]].
  all: simpl; (split; [apply Qle_refl|]);
    (split; [unfold LANE_CHANGE_COOLDOWN in El; lra|]);
    (split; [intros E; discriminate|intros _; auto]).
Qed.

Lemma feed_cons t landmarks rest st :
  feed ((t, landmarks) :: rest) st
  = ((t, fst (detectGesture landmarks t st))
       :: fst (feed rest (snd (detectGesture landmarks t st))),
     snd (feed rest (snd (detectGesture landmarks t st)))).
Proof.
  simpl. destruct (detectGesture landmarks t st) as [out st1]. simpl.
  destruct (feed rest st1). reflexivity.
Qed.

(** Every gesture emitted later in a run is spaced from the timestamps
    the run started with. *)
Lemma feed_later samples : forall st j tj gj,
  nth_error (fst (feed samples st)) j = Some (tj, Returned gj) ->
  (gj = JUMP -> JUMP_COOLDOWN < tj - lastJumpTime st
                /\ LANE_CHANGE_COOLDOWN < tj - lastGestureTime st)
  /\ (isLean gj = true -> LANE_CHANGE_COOLDOWN <= tj - lastGestureTime st).
Proof.
  induction samples as [|[t l] rest IH]; intros st j tj gj H.
  - destruct j; discriminate.
  - rewrite feed_cons in H. cbn [fst] in H.
    destruct (detectGesture_cooldown l t st) as (Hj & Hg & HJ & HL).
    destruct j as [|j]; cbn [nth_error] in H.
    + injection H as Ht Ho. subst tj. split.
      * intros ->. destruct (HJ Ho) as (_ & H1 & H2). auto.
      * intros Hl. apply HL.
        destruct gj; try discriminate; rewrite Ho; auto.
    + destruct (IH _ _ _ _ H) as [IJ IL]. split.
      * intros E. destruct (IJ E). split; lra.
      * intros E. specialize (IL E). lra.
Qed.

(** C6. Along any run of the classifier, two JUMPs are more than
    JUMP_COOLDOWN (800 ms) apart, so a second jump-eligible displacement
    within 800 ms of a JUMP yields no JUMP; a LEFT or RIGHT is followed by
    another LEFT or RIGHT no sooner than LANE_CHANGE_COOLDOWN (400 ms)
    later, and by a JUMP only more than 400 ms later. *)
Theorem gesture_cooldowns
    (samples : list (Q * option Landmarks)) (st : GestureVars)
    (i j : nat) (ti tj : Q) (gi gj : Gesture) :
  (i < j)%nat ->
  nth_error (fst (feed samples st)) i = Some (ti, Returned gi) ->
  nth_error (fst (feed samples st)) j = Some (tj, Returned gj) ->
  (gi = JUMP -> gj = JUMP -> JUMP_COOLDOWN < tj - ti)
  /\ (isLean gi = true -> isLean gj = true -> LANE_CHANGE_COOLDOWN <= tj - ti)
  /\ (isLean gi = true -> gj = JUMP -> LANE_CHANGE_COOLDOWN < tj - ti).
Proof.
  revert st i j.
  induction samples as [|[t l] rest IH]; intros st i j Hij Hi Hj.
  - destruct i; discriminate.
  - rewrite feed_cons in Hi, Hj. cbn [fst] in Hi, Hj.
    destruct j as [|j]; [lia|]. cbn [nth_error] in Hj.
    destruct i as [|i]; cbn [nth_error] in Hi.
    + injection Hi as Ht Ho. subst ti.
      destruct (detectGesture_cooldown l t st) as (_ & _ & HJ & HL).
      destruct (feed_later _ _ _ _ _ Hj) as [LJ LL].
      split; [|split].
      * intros -> E. destruct (HJ Ho) as (E1 & _ & _).
        destruct (LJ E) as [H _]. rewrite E1 in H. exact H.
      * intros Ei Ej. specialize (LL Ej).
        assert (E1 : lastGestureTime (snd (detectGesture l t st)) = t).
        { apply HL. destruct gi; try discriminate; rewrite Ho; auto. }
        rewrite E1 in LL. exact LL.
      * intros Ei Ej. destruct (LJ Ej) as [_ H].
        assert (E1 : lastGestureTime (snd (detectGesture l t st)) = t).
        { apply HL. destruct gi; try discriminate; rewrite Ho; auto. }
        rewrite E1 in H. exact H.
    + apply (IH (snd (detectGesture l t st)) i j); [lia|assumption|assumption].
Qed.

Lemma gesture_cooldowns_witness :
  let outs := fst (feed threeDisplacements resetGestureState) in
  nth_error outs 30 = Some (1000, Returned JUMP)
  /\ nth_error outs 31 = Some (1799, Returned NONE)
  /\ nth_error outs 32 = Some (2000, Returned JUMP)
  /\ JUMP_COOLDOWN < 2000 - 1000.
Proof.
  intros outs.
  assert (H30 : nth_error outs 30 = Some (1000, Returned JUMP)) by (vm_compute; reflexivity).
  assert (H31 : nth_error outs 31 = Some (1799, Returned NONE)) by (vm_compute; reflexivity).
  assert (H32 : nth_error outs 32 = Some (2000, Returned JUMP)) by (vm_compute; reflexivity).
  assert (Hlt : (30 < 32)%nat) by lia.
  destruct (gesture_cooldowns threeDisplacements resetGestureState 30 32
              1000 2000 JUMP JUMP Hlt H30 H32) as (HJ & _ & _).
  split; [exact H30|]. split; [exact H31|]. split; [exact H32|].
  exact (HJ eq_refl eq_refl).
Defined.

(** A lean right after a JUMP: the claim that gestures of different kinds
    are at least LANE_CHANGE_COOLDOWN apart fails for JUMP followed by
    LEFT, here one millisecond later. *)
Lemma lean_one_ms_after_jump :
  let outs := fst (feed jumpWhileLeaning resetGestureState) in
  nth_error outs 30 = Some (1000, Returned JUMP)
  /\ nth_error outs 31 = Some (1001, Returned LEFT)
  /\ ~ LANE_CHANGE_COOLDOWN <= 1001 - 1000.
Proof.
  intros outs.
  split; [vm_compute; reflexivity|].
  split; [vm_compute; reflexivity|].
  intros H. vm_compute in H. apply H. reflexivity.
Qed.

(** ** Calibration on an unchanging posture *)



Section SamePosture.

Variable lms : Landmarks.
Variables leftHip rightHip leftShoulder rightShoulder : Landmark.
Hypothesis HleftHip : landmarkAt lms 23 = Some leftHip.
Hypothesis HrightHip : landmarkAt lms 24 = Some rightHip.
Hypothesis HleftShoulder : landmarkAt lms 11 = Some leftShoulder.
Hypothesis HrightShoulder : landmarkAt lms 12 = Some rightShoulder.

Local Abbreviation y := (torsoY leftHip rightHip leftShoulder rightShoulder).




End SamePosture.




(** ** Samples with missing landmarks *)




(** ** Invariants of the session *)

Lemma obstacleLoop_hits player speed dt clock obstacles : forall i v,
  hits (v_game v) (v_game (snd (obstacleLoop player speed dt clock i obstacles v))).
Proof.
  induction obstacles as [|obs rest IH]; intros i v; cbn [obstacleLoop].
  - apply hits_none.
  - destruct (obstacleBody_hit player speed dt (clock i) obs v) as [Hg _].
    destruct (obstacleBody player speed dt (clock i) obs v) as [obs' v1].
    cbn [snd] in Hg.
    specialize (IH (S i) v1).
    destruct (obstacleLoop player speed dt clock (S i) rest v1) as [rest' v2].
    cbn [snd] in *.
    assert (H1 : hits (v_game v) (v_game v1)).
    { rewrite Hg. destruct (_ && _); [apply hits_more|]; apply hits_none. }
    clear Hg. induction IH; [exact H1|]. apply hits_more. apply IHIH. exact H1.
Qed.

Lemma updateGameLogic_hits dt time inp e :
  hits (gameState e) (gameState (updateGameLogic dt time inp e)).
Proof.
  unfold updateGameLogic.
  match goal with
  | |- context [obstacleLoop ?p ?s ?d ?c ?i ?l ?v] =>
    pose proof (obstacleLoop_hits p s d c l i v) as H;
    destruct (obstacleLoop p s d c i l v) as [obs' v']
  end.
  exact H.
Qed.

(** Facts about lives and flags that hits keep. *)
Lemma hits_keep g g' :
  hits g g' ->
  isPlaying g' = isPlaying g /\ isPaused g' = isPaused g
  /\ (gameOver g = true -> gameOver g' = true)
  /\ ((gameOver g = false -> (1 <= lives g <= 3)%Z) ->
      (gameOver g = true -> lives g = 0%Z) ->
      (gameOver g' = false -> (1 <= lives g' <= 3)%Z)
      /\ (gameOver g' = true -> lives g' = 0%Z)).
Proof.
  induction 1 as [g|g g' s H IH].
  - tauto.
  - destruct IH as (I1 & I2 & I3 & I4).
    unfold loseLife. destruct (lives g' - 1 <=? 0)%Z eqn:E; cbn.
    + split; [assumption|]. split; [assumption|]. split; [reflexivity|].
      intros _ _. split; [discriminate|reflexivity].
    + apply Z.leb_gt in E.
      split; [assumption|]. split; [assumption|]. split; [assumption|].
      intros Ha Hb. destruct (I4 Ha Hb) as [J1 J2].
      split; intros Hg.
      * specialize (J1 Hg). lia.
      * specialize (J2 Hg). lia.
Qed.

Lemma jumpPhysics_lane time p : lane (jumpPhysics time p) = lane p.
Proof.
  unfold jumpPhysics. destruct (isJumping p); [destruct (Qltb _ _)|]; reflexivity.
Qed.

Lemma updateGameLogic_refs dt time inp e :
  let e' := updateGameLogic dt time inp e in
  isPlayingRef e' = isPlayingRef e /\ isPausedRef e' = isPausedRef e
  /\ poseData e' = poseData e /\ gestureVars e' = gestureVars e
  /\ lane (playerStateRef e') = lane (playerStateRef e).
Proof.
  unfold updateGameLogic.
  destruct (obstacleLoop _ _ _ _ _ _ _) as [obs v]. cbn.
  repeat split. apply jumpPhysics_lane.
Qed.

Lemma updateGameLogic_unpassed dt time inp e :
  (forall o, In o (obstaclesRef e) -> passed o = false) ->
  forall o, In o (obstaclesRef (updateGameLogic dt time inp e)) -> passed o = false.
Proof.
  intros H o Hin.
  destruct (updateGameLogic_obstacles dt time inp e) as [Hobs _].
  pose proof (visitedObstacles_unpassed time inp e H) as Hvis.
  rewrite Hobs in Hin. apply filter_In in Hin. destruct Hin as [Hin Hk].
  apply in_map_iff in Hin. destruct Hin as (o0 & Ho & Hin).
  apply negb_true_iff in Hk.
  destruct (crosses (speedOfScore (scoreRef e)) dt o0) eqn:Hc.
  - exfalso.
    assert (includes (map o_id (filter (crosses (speedOfScore (scoreRef e)) dt)
                                  (visitedObstacles time inp e))) (o_id o) = true).
    { apply includes_In. subst o. rewrite visitObstacle_id.
      apply in_map. apply filter_In. auto. }
    congruence.
  - subst o. unfold visitObstacle. rewrite Hc. simpl. now apply Hvis.
Qed.

(** What a frame keeps and changes. *)
Lemma animate_facts time inp e :
  let e' := animate time inp e in
  hits (gameState e) (gameState e')
  /\ isPlayingRef e' = isPlayingRef e /\ isPausedRef e' = isPausedRef e
  /\ poseData e' = poseData e /\ gestureVars e' = gestureVars e
  /\ lane (playerStateRef e') = lane (playerStateRef e)
  /\ ((forall o, In o (obstaclesRef e) -> passed o = false) ->
      forall o, In o (obstaclesRef e') -> passed o = false).
Proof.
  unfold animate.
  destruct (negb (isPlayingRef e));
    [split; [apply hits_none|]; repeat split; auto|].
  destruct (isPausedRef e) eqn:Ep;
    [split; [apply hits_none|]; cbn; repeat split; auto|].
  set (e0 := setLastTime time e).
  destruct (updateGameLogic_refs ((time - lastTimeRef e) / 1000) time inp e0)
    as (H1 & H2 & H3 & H4 & H5).
  split; [apply (updateGameLogic_hits _ time inp e0)|].
  split; [exact H1|]. split; [rewrite H2; exact Ep|]. split; [exact H3|].
  split; [exact H4|]. split; [exact H5|].
  apply (updateGameLogic_unpassed _ time inp e0).
Qed.

Lemma inputEffect_facts c e e' :
  inputEffect c e = Some e' ->
  gameState e' = gameState e /\ isPlayingRef e' = isPlayingRef e
  /\ isPausedRef e' = isPausedRef e
  /\ obstaclesRef e' = obstaclesRef e /\ decorationsRef e' = decorationsRef e
  /\ scoreRef e' = scoreRef e /\ speedRef e' = speedRef e
  /\ lastHitTimeRef e' = lastHitTimeRef e
  /\ ((0 <= lane (playerStateRef e) <= 2)%Z ->
      (0 <= lane (playerStateRef e') <= 2)%Z).
Proof.
  unfold inputEffect. destruct (poseData e) as [pl|].
  2:{ intros [= <-]. repeat split; try reflexivity; tauto. }
  destruct (_ || _).
  { intros [= <-]. repeat split; try reflexivity; tauto. }
  destruct (detectGesture pl (c_input c) (gestureVars e)) as [[g|] gv];
    [|discriminate].
  intros [= <-]. cbn. repeat split; try reflexivity.
  all: now apply applyGesture_lane_range.
Qed.

(** When the game is not on, the input effect does nothing. *)
Lemma inputEffect_idle c e :
  negb (isPlaying (gameState e)) || gameOver (gameState e)
    || isPaused (gameState e) = true ->
  inputEffect c e = Some e.
Proof.
  intros H. unfold inputEffect. destruct (poseData e); [|reflexivity].
  now rewrite H.
Qed.

Lemma runEffects_facts c old poseChanged e e' :
  runEffects c old poseChanged e = Some e' ->
  let loopDeps :=
    negb (Bool.eqb (isPlaying old) (isPlaying (gameState e)))
    || negb (Bool.eqb (gameOver old) (gameOver (gameState e))) in
  let e1 := if loopDeps then gameLoopEffect c e else e in
  gameState e' = gameState e /\ isPlayingRef e' = isPlayingRef e1
  /\ obstaclesRef e' = obstaclesRef e1 /\ decorationsRef e' = decorationsRef e1
  /\ scoreRef e' = scoreRef e1 /\ speedRef e' = speedRef e1
  /\ lastHitTimeRef e' = lastHitTimeRef e1
  /\ ((0 <= lane (playerStateRef e1) <= 2)%Z ->
      (0 <= lane (playerStateRef e') <= 2)%Z).
Proof.
  unfold runEffects. cbn zeta.
  set (loopDeps := negb (Bool.eqb (isPlaying old) (isPlaying (gameState e)))
                   || negb (Bool.eqb (gameOver old) (gameOver (gameState e)))).
  set (e1 := if loopDeps then gameLoopEffect c e else e).
  assert (G1 : gameState e1 = gameState e)
    by (unfold e1; destruct loopDeps; reflexivity).
  set (e2 := if negb (Bool.eqb (isPaused old) (isPaused (gameState e)))
             then pauseEffect e1 else e1).
  assert (G2 : gameState e2 = gameState e1 /\ isPlayingRef e2 = isPlayingRef e1
               /\ obstaclesRef e2 = obstaclesRef e1
               /\ decorationsRef e2 = decorationsRef e1
               /\ scoreRef e2 = scoreRef e1 /\ speedRef e2 = speedRef e1
               /\ lastHitTimeRef e2 = lastHitTimeRef e1
               /\ playerStateRef e2 = playerStateRef e1)
    by (unfold e2; destruct (negb (Bool.eqb (isPaused old) _));
        repeat split; reflexivity).
  destruct G2 as (A1 & A2 & A3 & A4 & A5 & A6 & A7 & A8).
  fold e2. destruct (poseChanged || loopDeps || _).
  - intros H. apply inputEffect_facts in H.
    destruct H as (B1 & B2 & _ & B3 & B4 & B5 & B6 & B7 & B8).
    rewrite A8 in B8.
    repeat split; try congruence. all: apply B8; assumption.
  - intros [= <-]. rewrite A8. repeat split; try congruence; tauto.
Qed.

Lemma runEffects_SessionInv c old poseChanged e0 e' :
  runEffects c old poseChanged e0 = Some e' ->
  isPlayingRef e0 = isPlaying old && negb (gameOver old) ->
  (gameOver (gameState e0) = false -> (1 <= lives (gameState e0) <= 3)%Z) ->
  (gameOver (gameState e0) = true -> lives (gameState e0) = 0%Z) ->
  (forall o, In o (obstaclesRef e0) -> passed o = false) ->
  (0 <= lane (playerStateRef e0) <= 2)%Z ->
  SessionInv e'.
Proof.
  intros H Hp Hl1 Hl2 Hun Hlane.
  apply runEffects_facts in H. cbn zeta in H.
  destruct H as (G & P & O & _ & _ & _ & _ & L).
  destruct (negb (Bool.eqb (isPlaying old) (isPlaying (gameState e0)))
            || negb (Bool.eqb (gameOver old) (gameOver (gameState e0)))) eqn:D.
  - constructor; rewrite ?G, ?P, ?O; auto.
    + intros o [].
    + apply L. cbn. lia.
  - apply orb_false_iff in D. destruct D as [D1 D2].
    apply negb_false_iff, Bool.eqb_prop in D1, D2.
    constructor; rewrite ?G, ?P, ?O; auto.
    rewrite Hp. congruence.
Qed.

Lemma step_SessionInv c cmd e e' :
  SessionInv e -> step c cmd e = Some e' -> SessionInv e'.
Proof.
  intros [Hp Hl1 Hl2 Hun Hlane] H.
  destruct cmd; cbn [step] in H;
    try (apply (runEffects_SessionInv _ _ _ _ _ H); cbn; auto; try lia; discriminate).
  destruct (animate_facts time inp e) as (Hh & A1 & _ & _ & _ & A5 & A6).
  destruct (hits_keep _ _ Hh) as (_ & _ & _ & K).
  destruct (K Hl1 Hl2) as [K1 K2].
  apply (runEffects_SessionInv _ _ _ _ _ H); auto; try congruence.
Qed.

Lemma mounted_SessionInv now : SessionInv (mounted now).
Proof.
  constructor; cbn; auto; try lia; try discriminate.
Qed.

Lemma run_SessionInv cmds : forall e e',
  SessionInv e -> run cmds e = Some e' -> SessionInv e'.
Proof.
  induction cmds as [|[c cmd] rest IH]; intros e e' Hinv H; cbn [run] in H.
  - now injection H as <-.
  - destruct (step c cmd e) as [e1|] eqn:E; [|discriminate].
    apply (IH e1 e'); [|assumption]. now apply (step_SessionInv c cmd e).
Qed.

(** ** Game over *)

Lemma idle_when_over g :
  gameOver g = true -> negb (isPlaying g) || gameOver g || isPaused g = true.
Proof. intros ->. now destruct (isPlaying g). Qed.

(** Once the game is over, a command other than a start leaves the
    gameplay state alone and the loop stopped. *)
Lemma step_over c cmd e :
  gameOver (gameState e) = true -> isPlayingRef e = false ->
  notRestart cmd = true ->
  exists e', step c cmd e = Some e' /\ gameplay e' = gameplay e
             /\ gameOver (gameState e') = true /\ isPlayingRef e' = false.
Proof.
  intros Hover Hstop Hcmd.
  destruct cmd; try discriminate; cbn [step].
  - (* Frame *)
    unfold animate. rewrite Hstop. cbn [negb].
    unfold runEffects. rewrite !Bool.eqb_reflx. cbn.
    exists e. auto.
  - (* Pose *)
    unfold runEffects. cbn [setPose gameState]. rewrite !Bool.eqb_reflx.
    cbn [negb orb]. rewrite inputEffect_idle.
    + eexists. split; [reflexivity|]. cbn. auto.
    + apply idle_when_over. exact Hover.
  - (* Pause *)
    unfold runEffects. cbn [setGame gameState handlePause isPlaying gameOver isPaused].
    rewrite !Bool.eqb_reflx. cbn [negb orb].
    destruct (negb (Bool.eqb (isPaused (gameState e)) true)).
    + rewrite inputEffect_idle.
      * eexists. split; [reflexivity|]. cbn. auto.
      * apply idle_when_over. exact Hover.
    + eexists. split; [reflexivity|]. cbn. auto.
  - (* Resume *)
    unfold runEffects. cbn [setGame gameState handleResume isPlaying gameOver isPaused].
    rewrite !Bool.eqb_reflx. cbn [negb orb].
    destruct (negb (Bool.eqb (isPaused (gameState e)) false)).
    + rewrite inputEffect_idle.
      * eexists. split; [reflexivity|]. cbn. auto.
      * apply idle_when_over. exact Hover.
    + eexists. split; [reflexivity|]. cbn. auto.
  - (* CameraReady *)
    unfold runEffects. cbn [setGame gameState onCameraReady isPlaying gameOver isPaused].
    rewrite !Bool.eqb_reflx. cbn.
    eexists. split; [reflexivity|]. cbn. auto.
Qed.

Lemma run_over cmds : forall e,
  gameOver (gameState e) = true -> isPlayingRef e = false ->
  forallb (fun c => notRestart (snd c)) cmds = true ->
  exists e', run cmds e = Some e' /\ gameplay e' = gameplay e.
Proof.
  induction cmds as [|[c cmd] rest IH]; intros e Hover Hstop Hall.
  - exists e. split; reflexivity.
  - cbn [forallb snd] in Hall. apply andb_true_iff in Hall.
    destruct Hall as [Hcmd Hrest].
    destruct (step_over c cmd e Hover Hstop Hcmd) as (e1 & Hs & Hg & Ho & Hp).
    destruct (IH e1 Ho Hp Hrest) as (e' & Hr & Hg').
    exists e'. cbn [run]. rewrite Hs. split; [exact Hr|congruence].
Qed.

(** C3. In every state the session reaches, lives at 0 means the game is
    over, and the hit that takes the last life sets lives to 0 and the
    game-over flag.  Once the game is over, every sequence of frames, pose
    updates and pause, resume or camera commands runs to the end and leaves
    the gameplay state (score and lives among it) as it was; only a start
    or restart command changes it. *)
Theorem game_over_is_terminal
    (now : Q) (cmds later : list (Clocks * Command)) (e : Engine) :
  run cmds (mounted now) = Some e ->
  (lives (gameState e) = 0%Z -> gameOver (gameState e) = true)
  /\ (forall scoreNow, lives (gameState e) = 1%Z ->
        lives (loseLife scoreNow (gameState e)) = 0%Z
        /\ gameOver (loseLife scoreNow (gameState e)) = true)
  /\ (gameOver (gameState e) = true ->
      forallb (fun c => notRestart (snd c)) later = true ->
      exists e', run later e = Some e' /\ gameplay e' = gameplay e).
Proof.
  intros Hrun.
  pose proof (run_SessionInv cmds _ _ (mounted_SessionInv now) Hrun) as Hinv.
  destruct Hinv as [Hp Hl1 Hl2 _ _].
  split.
  { intros H0. destruct (gameOver (gameState e)) eqn:E; [reflexivity|].
    specialize (Hl1 eq_refl). lia. }
  split.
  { intros scoreNow H1.
    destruct (loseLife_gameOver scoreNow (gameState e)) as [A B]; [lia|]. auto. }
  intros Hover Hlater. apply run_over; [exact Hover| |exact Hlater].
  rewrite Hp, Hover. apply andb_false_r.
Qed.

Lemma game_over_is_terminal_witness :
  run threeHits (mounted 0) = Some afterThreeHits
  /\ gameOver (gameState afterThreeHits) = true
  /\ lives (gameState afterThreeHits) = 0%Z
  /\ score (gameState afterThreeHits) = 20%Z
  /\ exists e', run afterGameOver afterThreeHits = Some e'
                /\ gameplay e' = gameplay afterThreeHits.
Proof.
  assert (Hrun : run threeHits (mounted 0) = Some afterThreeHits)
    by (vm_compute; reflexivity).
  assert (Hover : gameOver (gameState afterThreeHits) = true)
    by (vm_compute; reflexivity).
  destruct (game_over_is_terminal 0 threeHits afterGameOver afterThreeHits Hrun)
    as (_ & _ & Hterm).
  split; [exact Hrun|]. split; [exact Hover|].
  split; [vm_compute; reflexivity|]. split; [vm_compute; reflexivity|].
  apply Hterm; [exact Hover|reflexivity].
Defined.

(** ** Score and speed within a session *)

Lemma speedOfScore_mono s1 s2 :
  (s1 <= s2)%Z -> speedOfScore s1 <= speedOfScore s2.
Proof.
  intros H. unfold speedOfScore. apply Q.min_le_compat_l.
  assert (inject_Z s1 <= inject_Z s2) by (rewrite <- Zle_Qle; exact H).
  assert (inject_Z s1 / 50 <= inject_Z s2 / 50).
  { unfold Qdiv. apply Qmult_le_compat_r; [assumption|discriminate]. }
  lra.
Qed.

Lemma speedOfScore_bounds s :
  (0 <= s)%Z -> START_SPEED <= speedOfScore s /\ speedOfScore s <= MAX_SPEED.
Proof.
  intros H. split; [|apply Q.le_min_l].
  unfold speedOfScore. apply Q.min_glb; [discriminate|].
  assert (H0 : inject_Z 0 <= inject_Z s) by (rewrite <- Zle_Qle; exact H).
  change (inject_Z 0) with 0 in H0.
  assert (0 <= inject_Z s / 50).
  { apply Qle_shift_div_l; [reflexivity|]. lra. }
  lra.
Qed.

Lemma updateGameLogic_score dt time inp e :
  exists n, scoreRef (updateGameLogic dt time inp e)
            = (scoreRef e + 10 * Z.of_nat n)%Z.
Proof.
  destruct (updateGameLogic_obstacles dt time inp e) as [_ H].
  eexists. exact H.
Qed.

(** A frame never lowers the score or the speed. *)
Lemma animate_score time inp e :
  ScoreInv e ->
  let e' := animate time inp e in
  ScoreInv e'
  /\ (exists n, scoreRef e' = (scoreRef e + 10 * Z.of_nat n)%Z)
  /\ speedRef e <= speedRef e'.
Proof.
  intros [Hs Hlo Hhi]. unfold animate.
  assert (Hsame : forall e0, scoreRef e0 = scoreRef e -> speedRef e0 = speedRef e ->
            ScoreInv e0
            /\ (exists n, scoreRef e0 = (scoreRef e + 10 * Z.of_nat n)%Z)
            /\ speedRef e <= speedRef e0).
  { intros e0 E1 E2. split; [constructor; rewrite ?E1, ?E2; assumption|].
    split; [exists 0%nat; rewrite E1; cbn; lia|rewrite E2; apply Qle_refl]. }
  destruct (negb (isPlayingRef e)); [now apply Hsame|].
  destruct (isPausedRef e); [now apply Hsame|].
  set (e0 := setLastTime time e).
  destruct (updateGameLogic_score ((time - lastTimeRef e) / 1000) time inp e0)
    as [n Hn].
  change (scoreRef e0) with (scoreRef e) in Hn.
  pose proof (updateGameLogic_speed ((time - lastTimeRef e) / 1000) time inp e0)
    as Hv.
  change (scoreRef e0) with (scoreRef e) in Hv.
  split.
  - constructor; rewrite ?Hn, ?Hv.
    + lia.
    + now apply speedOfScore_bounds.
    + apply speedOfScore_mono. lia.
  - split; [exists n; exact Hn|]. rewrite Hv. exact Hhi.
Qed.

Lemma frames_score fs : forall e,
  ScoreInv e ->
  ScoreInv (frames fs e)
  /\ (exists n, scoreRef (frames fs e) = (scoreRef e + 10 * Z.of_nat n)%Z)
  /\ speedRef e <= speedRef (frames fs e).
Proof.
  unfold frames.
  induction fs as [|[time inp] fs IH]; intros e Hinv; cbn [fold_left fst snd].
  - split; [assumption|]. split; [exists 0%nat; cbn; lia|apply Qle_refl].
  - destruct (animate_score time inp e Hinv) as (H1 & [n Hn] & H3).
    destruct (IH _ H1) as (I1 & [m Hm] & I3).
    split; [assumption|]. split.
    + exists (n + m)%nat. rewrite Hm, Hn. lia.
    + eapply Qle_trans; eassumption.
Qed.

Lemma gameLoopEffect_ScoreInv c e : ScoreInv (gameLoopEffect c e).
Proof. constructor; cbn; [lia|apply Qle_refl|discriminate]. Qed.

Lemma runEffects_ScoreInv c old poseChanged e0 e' :
  runEffects c old poseChanged e0 = Some e' -> ScoreInv e0 -> ScoreInv e'.
Proof.
  intros H Hinv. apply runEffects_facts in H. cbn zeta in H.
  destruct H as (_ & _ & _ & _ & S & V & _).
  assert (H1 : ScoreInv (if negb (Bool.eqb (isPlaying old) (isPlaying (gameState e0)))
                           || negb (Bool.eqb (gameOver old) (gameOver (gameState e0)))
                         then gameLoopEffect c e0 else e0)).
  { destruct (_ || _); [apply gameLoopEffect_ScoreInv|assumption]. }
  destruct H1 as [A B C]. constructor; rewrite ?S, ?V; assumption.
Qed.

Lemma step_ScoreInv c cmd e e' :
  ScoreInv e -> step c cmd e = Some e' -> ScoreInv e'.
Proof.
  intros Hinv H. destruct cmd; cbn [step] in H;
    apply (runEffects_ScoreInv _ _ _ _ _ H);
    try (destruct Hinv; constructor; assumption).
  now apply animate_score.
Qed.

Lemma run_ScoreInv cmds : forall e e',
  ScoreInv e -> run cmds e = Some e' -> ScoreInv e'.
Proof.
  induction cmds as [|[c cmd] rest IH]; intros e e' Hinv H; cbn [run] in H.
  - now injection H as <-.
  - destruct (step c cmd e) as [e1|] eqn:E; [|discriminate].
    apply (IH e1 e'); [|assumption]. now apply (step_ScoreInv c cmd e).
Qed.

Lemma mounted_ScoreInv now : ScoreInv (mounted now).
Proof. constructor; cbn; [lia|apply Qle_refl|discriminate]. Qed.

(** A command that does not re-run the game-loop effect never lowers the
    score or the speed. *)
Lemma step_score c cmd e e' :
  ScoreInv e -> step c cmd e = Some e' ->
  isPlaying (gameState e') = isPlaying (gameState e) ->
  gameOver (gameState e') = gameOver (gameState e) ->
  (scoreRef e <= scoreRef e')%Z /\ speedRef e <= speedRef e'.
Proof.
  intros Hinv H Hp Ho.
  assert (Hgen : forall e0,
            runEffects c (gameState e) false e0 = Some e'
            \/ runEffects c (gameState e) true e0 = Some e' ->
            (scoreRef e <= scoreRef e0)%Z -> speedRef e <= speedRef e0 ->
            (scoreRef e <= scoreRef e')%Z /\ speedRef e <= speedRef e').
  { intros e0 Hr Hs Hv.
    assert (F : exists b, runEffects c (gameState e) b e0 = Some e')
      by (destruct Hr; eauto).
    destruct F as [b F]. apply runEffects_facts in F. cbn zeta in F.
    destruct F as (G & _ & _ & _ & S & V & _).
    rewrite <- G, Hp, Ho, !Bool.eqb_reflx in S, V. cbn in S, V.
    rewrite S, V. auto. }
  destruct cmd; cbn [step] in H;
    try (apply (Hgen _ (or_introl H)); [cbn; lia|cbn; apply Qle_refl]).
  - destruct (animate_score time inp e Hinv) as (_ & [n Hn] & Hv).
    apply (Hgen _ (or_introl H)); [lia|exact Hv].
  - apply (Hgen _ (or_intror H)); [cbn; lia|cbn; apply Qle_refl].
Qed.

(** C10. From any state the session reaches, frames never lower the score:
    over any number of consecutive frames it grows by a multiple of 10.
    The speed never decreases over them either, and stays between
    START_SPEED and MAX_SPEED.  The same holds across any single command
    that does not re-run the game-loop effect (the reset). *)
Theorem score_and_speed_never_decrease
    (now : Q) (cmds : list (Clocks * Command)) (e : Engine)
    (fs : list (Q * TickInput)) :
  run cmds (mounted now) = Some e ->
  let e' := frames fs e in
  (scoreRef e <= scoreRef e')%Z
  /\ (exists n, scoreRef e' = (scoreRef e + 10 * Z.of_nat n)%Z)
  /\ speedRef e <= speedRef e'
  /\ START_SPEED <= speedRef e /\ speedRef e' <= MAX_SPEED
  /\ (forall c cmd e1,
        step c cmd e = Some e1 ->
        isPlaying (gameState e1) = isPlaying (gameState e) ->
        gameOver (gameState e1) = gameOver (gameState e) ->
        (scoreRef e <= scoreRef e1)%Z /\ speedRef e <= speedRef e1).
Proof.
  intros Hrun e'.
  pose proof (run_ScoreInv cmds _ _ (mounted_ScoreInv now) Hrun) as Hinv.
  destruct (frames_score fs e Hinv) as (Hinv' & [n Hn] & Hv).
  fold e' in Hinv', Hn, Hv.
  split; [lia|]. split; [exists n; exact Hn|]. split; [exact Hv|].
  split; [apply Hinv|]. split.
  - destruct Hinv' as [A B C].
    eapply Qle_trans; [exact C|]. now apply speedOfScore_bounds.
  - intros c cmd e1. now apply step_score.
Qed.

Lemma score_and_speed_never_decrease_witness :
  let fs := [(12000, exampleInput "0.31" "0.32" "0.33" 12000)] in
  run (firstn 3 threeHits) (mounted 0) = Some afterTwoHits
  /\ scoreRef afterTwoHits = 10%Z
  /\ scoreRef (frames fs afterTwoHits) = 20%Z
  /\ speedRef afterTwoHits <= speedRef (frames fs afterTwoHits).
Proof.
  intros fs.
  assert (Hrun : run (firstn 3 threeHits) (mounted 0) = Some afterTwoHits)
    by (vm_compute; reflexivity).
  destruct (score_and_speed_never_decrease 0 (firstn 3 threeHits) afterTwoHits fs Hrun)
    as (_ & _ & Hv & _).
  split; [exact Hrun|]. split; [vm_compute; reflexivity|].
  split; [vm_compute; reflexivity|exact Hv].
Defined.

(** ** Identifiers of live entities *)

Section Ids.

Context {A : Type}.
Variable key : A -> string.

Lemma NoDup_keys_filter (p : A -> bool) (l : list A) :
  NoDup (map key l) -> NoDup (map key (filter p l)).
Proof.
  induction l as [|x l IH]; intros H; cbn [filter map]; [constructor|].
  cbn [map] in H. apply NoDup_cons_iff in H. destruct H as [Hx Hl].
  destruct (p x); cbn [map]; [|now apply IH].
  constructor; [|now apply IH].
  intros Hin. apply Hx. apply in_map_iff in Hin.
  destruct Hin as (y & Hy & Hin). apply filter_In in Hin.
  rewrite <- Hy. apply in_map. tauto.
Qed.

Lemma incl_keys_filter (p : A -> bool) (l : list A) :
  incl (map key (filter p l)) (map key l).
Proof.
  intros k Hin. apply in_map_iff in Hin. destruct Hin as (y & Hy & Hin).
  apply filter_In in Hin. rewrite <- Hy. apply in_map. tauto.
Qed.

Lemma keys_map (g : A -> A) (l : list A) :
  (forall x, key (g x) = key x) -> map key (map g l) = map key l.
Proof.
  intros H. rewrite map_map. apply map_ext. exact H.
Qed.

End Ids.

Lemma NoDup_app_disjoint {A} (l1 l2 : list A) :
  NoDup (l1 ++ l2) -> forall x, In x l1 -> ~ In x l2.
Proof.
  induction l1 as [|a l1 IH]; intros H x Hin; [destruct Hin|].
  cbn in H. apply NoDup_cons_iff in H. destruct H as [Ha Hl].
  destruct Hin as [<-|Hin].
  - intros Hx. apply Ha. apply in_or_app. now right.
  - now apply IH.
Qed.

Lemma NoDup_app_sub {A} (a b a' b' : list A) :
  NoDup a' -> NoDup b' -> incl a' a -> incl b' b ->
  (forall x, In x a -> ~ In x b) -> NoDup (a' ++ b').
Proof.
  intros Ha Hb Ia Ib Hd. apply NoDup_app; [assumption|assumption|].
  intros x Hx Hx'. apply (Hd x); auto.
Qed.

Lemma NoDup_snoc {A} (l : list A) (x : A) :
  NoDup l -> ~ In x l -> NoDup (l ++ [x]).
Proof.
  intros Hl Hx. apply NoDup_app; [assumption|repeat constructor; intros []|].
  intros a Ha [<-|[]]. contradiction.
Qed.

Lemma updateGameLogic_decorations dt time inp e :
  let sp := speedOfScore (scoreRef e) in
  decorationsRef (updateGameLogic dt time inp e)
  = moveDecorations sp dt
      (if Qgtb (time - lastDecorSpawnTimeRef e)
               (SPAWN_INTERVAL_BASE * 1000 / (sp / 15) / 8)
       then spawnDecoration (SPAWN_DISTANCE - r_z (decor2 inp) * 20) (decor2 inp)
              (spawnDecoration (SPAWN_DISTANCE - r_z (decor1 inp) * 20) (decor1 inp)
                 (decorationsRef e))
       else decorationsRef e).
Proof.
  unfold updateGameLogic.
  destruct (obstacleLoop _ _ _ _ _ _ _) as [obs v]. reflexivity.
Qed.

(** The obstacle ids a tick leaves: distinct, and among the old ones and
    the one drawn. *)
Lemma updateGameLogic_obstacle_ids dt time inp e :
  let e' := updateGameLogic dt time inp e in
  let O := map o_id (obstaclesRef e) in
  NoDup O -> ~ In (r_oid (obstacleDraw inp)) O ->
  NoDup (map o_id (obstaclesRef e'))
  /\ incl (map o_id (obstaclesRef e')) (O ++ [r_oid (obstacleDraw inp)]).
Proof.
  intros e' O HO Hfresh.
  destruct (updateGameLogic_obstacles dt time inp e) as [Hobs _].
  fold e' in Hobs. rewrite Hobs.
  set (sp := speedOfScore (scoreRef e)).
  set (visited := visitedObstacles time inp e).
  assert (Hv : NoDup (map o_id visited)
               /\ incl (map o_id visited) (O ++ [r_oid (obstacleDraw inp)])).
  { unfold visited, visitedObstacles, spawnObstacle. destruct (Qgtb _ _).
    - rewrite map_app. cbn [map o_id]. fold O.
      split; [now apply NoDup_snoc|apply incl_refl].
    - fold O. split; [assumption|apply incl_appl, incl_refl]. }
  destruct Hv as [Hv1 Hv2].
  assert (Hk : map o_id (map (visitObstacle sp dt) visited) = map o_id visited)
    by (apply keys_map; intros x; apply visitObstacle_id).
  split.
  - apply NoDup_keys_filter. rewrite Hk. exact Hv1.
  - eapply incl_tran; [apply incl_keys_filter|]. rewrite Hk. exact Hv2.
Qed.

(** The decoration ids a tick leaves. *)
Lemma updateGameLogic_decoration_ids dt time inp e :
  let e' := updateGameLogic dt time inp e in
  let D := map d_id (decorationsRef e) in
  let id1 := r_id (decor1 inp) in
  let id2 := r_id (decor2 inp) in
  NoDup D -> ~ In id1 D -> ~ In id2 D -> id1 <> id2 ->
  NoDup (map d_id (decorationsRef e'))
  /\ incl (map d_id (decorationsRef e')) (D ++ [id1; id2]).
Proof.
  intros e' D id1 id2 HD H1 H2 H12.
  unfold e'. rewrite updateGameLogic_decorations. cbn zeta.
  set (sp := speedOfScore (scoreRef e)).
  match goal with
  | |- context [moveDecorations sp dt ?l] => set (spawned := l)
  end.
  assert (Hs : NoDup (map d_id spawned)
               /\ incl (map d_id spawned) (D ++ [id1; id2])).
  { unfold spawned, spawnDecoration. destruct (Qgtb _ _).
    - rewrite !map_app. cbn [map d_id]. fold D id1 id2.
      rewrite <- app_assoc. cbn [app].
      split; [|apply incl_refl].
      apply NoDup_app; [assumption| |].
      + constructor; [intros [E|[]]; congruence|].
        constructor; [intros []|constructor].
      + intros x Hx [<-|[<-|[]]]; contradiction.
    - fold D. split; [assumption|apply incl_appl, incl_refl]. }
  destruct Hs as [Hs1 Hs2].
  unfold moveDecorations. cbn zeta.
  assert (Hk : map d_id (map (advanceDecoration sp dt) spawned) = map d_id spawned)
    by (apply keys_map; intros x; reflexivity).
  split.
  - apply NoDup_keys_filter. rewrite Hk. exact Hs1.
  - eapply incl_tran; [apply incl_keys_filter|]. rewrite Hk. exact Hs2.
Qed.

Lemma updateGameLogic_liveIds dt time inp e used :
  NoDup (liveIds e) -> incl (liveIds e) used ->
  NoDup (used ++ drawnIdsOf (Frame time inp)) ->
  NoDup (liveIds (updateGameLogic dt time inp e))
  /\ incl (liveIds (updateGameLogic dt time inp e))
          (used ++ drawnIdsOf (Frame time inp)).
Proof.
  unfold liveIds. cbn [drawnIdsOf].
  set (O := map o_id (obstaclesRef e)). set (D := map d_id (decorationsRef e)).
  set (id1 := r_id (decor1 inp)). set (id2 := r_id (decor2 inp)).
  set (oid := r_oid (obstacleDraw inp)).
  intros Hlive Hused Hfresh.
  pose proof (NoDup_app_remove_r _ _ Hlive) as HO.
  pose proof (NoDup_app_remove_l _ _ Hlive) as HD.
  pose proof (NoDup_app_disjoint _ _ Hlive) as HOD.
  pose proof (NoDup_app_remove_l _ _ Hfresh) as Hf.
  pose proof (NoDup_app_disjoint _ _ Hfresh) as Hdis.
  assert (Hnew : forall x, In x (O ++ D) -> ~ In x [id1; id2; oid])
    by (intros x Hx; apply Hdis, Hused, Hx).
  assert (H12 : id1 <> id2 /\ id1 <> oid /\ id2 <> oid).
  { apply NoDup_cons_iff in Hf. destruct Hf as [Ha Hf].
    apply NoDup_cons_iff in Hf. destruct Hf as [Hb _].
    cbn in Ha, Hb. repeat split; intros E; [apply Ha|apply Ha|apply Hb]; auto. }
  destruct H12 as (H12 & H1o & H2o).
  destruct (updateGameLogic_obstacle_ids dt time inp e) as [NO IO].
  { exact HO. }
  { fold oid O. intros Hin. apply (Hnew oid); [apply in_or_app; now left|].
    cbn. tauto. }
  destruct (updateGameLogic_decoration_ids dt time inp e) as [ND ID].
  { exact HD. }
  { fold id1 D. intros Hin. apply (Hnew id1); [apply in_or_app; now right|].
    cbn. tauto. }
  { fold id2 D. intros Hin. apply (Hnew id2); [apply in_or_app; now right|].
    cbn. tauto. }
  { exact H12. }
  fold O oid in IO. fold D id1 id2 in ID.
  split.
  - apply (NoDup_app_sub (O ++ [oid]) (D ++ [id1; id2])); try assumption.
    intros x Hx Hx'. apply in_app_or in Hx. apply in_app_or in Hx'.
    destruct Hx as [Hx|[<-|[]]]; destruct Hx' as [Hx'|[<-|[<-|[]]]].
    + now apply (HOD x).
    + apply (Hnew id1); [apply in_or_app; now left|cbn; tauto].
    + apply (Hnew id2); [apply in_or_app; now left|cbn; tauto].
    + apply (Hnew oid); [apply in_or_app; now right|cbn; tauto].
    + congruence.
    + congruence.
  - intros x Hx. apply in_app_or in Hx. apply in_or_app.
    destruct Hx as [Hx|Hx].
    + apply IO in Hx. apply in_app_or in Hx. destruct Hx as [Hx|[<-|[]]].
      * left. apply Hused. apply in_or_app. now left.
      * right. cbn. tauto.
    + apply ID in Hx. apply in_app_or in Hx. destruct Hx as [Hx|[<-|[<-|[]]]].
      * left. apply Hused. apply in_or_app. now right.
      * right. cbn. tauto.
      * right. cbn. tauto.
Qed.

Lemma animate_liveIds time inp e used :
  NoDup (liveIds e) -> incl (liveIds e) used ->
  NoDup (used ++ drawnIdsOf (Frame time inp)) ->
  NoDup (liveIds (animate time inp e))
  /\ incl (liveIds (animate time inp e)) (used ++ drawnIdsOf (Frame time inp)).
Proof.
  intros H1 H2 H3. unfold animate.
  destruct (negb (isPlayingRef e)); [split; [assumption|now apply incl_appl]|].
  destruct (isPausedRef e); [split; [assumption|now apply incl_appl]|].
  now apply (updateGameLogic_liveIds _ time inp (setLastTime time e)).
Qed.

Lemma runEffects_liveIds c old poseChanged e0 e' :
  runEffects c old poseChanged e0 = Some e' ->
  liveIds e' = liveIds e0 \/ liveIds e' = [].
Proof.
  intros H. apply runEffects_facts in H. cbn zeta in H.
  destruct H as (_ & _ & O & D & _). unfold liveIds. rewrite O, D.
  destruct (_ || _); [right|left]; reflexivity.
Qed.

Lemma step_liveIds c cmd e e' used :
  step c cmd e = Some e' ->
  NoDup (liveIds e) -> incl (liveIds e) used ->
  NoDup (used ++ drawnIdsOf cmd) ->
  NoDup (liveIds e') /\ incl (liveIds e') (used ++ drawnIdsOf cmd).
Proof.
  intros H H1 H2 H3.
  assert (Hgen : forall e0 b,
            runEffects c (gameState e) b e0 = Some e' ->
            NoDup (liveIds e0) /\ incl (liveIds e0) (used ++ drawnIdsOf cmd) ->
            NoDup (liveIds e') /\ incl (liveIds e') (used ++ drawnIdsOf cmd)).
  { intros e0 b Hr [A B].
    destruct (runEffects_liveIds _ _ _ _ _ Hr) as [E|E]; rewrite E.
    - auto.
    - split; [constructor|intros x []]. }
  destruct cmd; cbn [step] in H; apply (Hgen _ _ H);
    try (split; [assumption|now apply incl_appl]).
  now apply animate_liveIds.
Qed.

Lemma run_liveIds cmds : forall e e' used,
  run cmds e = Some e' ->
  NoDup (liveIds e) -> incl (liveIds e) used ->
  NoDup (used ++ drawnIds cmds) ->
  NoDup (liveIds e').
Proof.
  induction cmds as [|[c cmd] rest IH]; intros e e' used H H1 H2 H3;
    cbn [run] in H.
  - now injection H as <-.
  - destruct (step c cmd e) as [e1|] eqn:E; [|discriminate].
    unfold drawnIds in H3. cbn [flat_map snd] in H3. rewrite app_assoc in H3.
    destruct (step_liveIds c cmd e e1 used E H1 H2) as [A B].
    { exact (NoDup_app_remove_r _ _ H3). }
    exact (IH e1 e' (used ++ drawnIdsOf cmd) H A B H3).
Qed.

(** C9. In every state the session reaches, no two live obstacles or
    decorations share an id, provided the id strings drawn by the frames
    that led there are pairwise different. *)
Theorem live_ids_unique (now : Q) (cmds : list (Clocks * Command)) (e : Engine) :
  NoDup (drawnIds cmds) ->
  run cmds (mounted now) = Some e ->
  NoDup (liveIds e).
Proof.
  intros Hd Hrun.
  apply (run_liveIds cmds (mounted now) e [] Hrun).
  - constructor.
  - intros x [].
  - exact Hd.
Qed.

Lemma live_ids_unique_witness :
  NoDup (drawnIds (firstn 3 threeHits))
  /\ run (firstn 3 threeHits) (mounted 0) = Some afterTwoHits
  /\ liveIds afterTwoHits = ["0.23"; "0.21"; "0.22"]%string
  /\ NoDup (liveIds afterTwoHits).
Proof.
  assert (Hd : NoDup (drawnIds (firstn 3 threeHits))).
  { cbn. repeat (constructor; [cbn; intuition discriminate|]). constructor. }
  assert (Hrun : run (firstn 3 threeHits) (mounted 0) = Some afterTwoHits)
    by (vm_compute; reflexivity).
  split; [exact Hd|]. split; [exact Hrun|]. split; [vm_compute; reflexivity|].
  exact (live_ids_unique 0 (firstn 3 threeHits) afterTwoHits Hd Hrun).
Defined.

(** Two decorations spawned in one frame with the same drawn id string are
    both live afterwards. *)
Lemma same_draw_shares_id :
  option_map liveIds (run sameDraw (mounted 0)) = Some ["0.5"; "0.5"]%string
  /\ ~ NoDup ["0.5"; "0.5"]%string.
Proof.
  split; [vm_compute; reflexivity|].
  intros H. apply NoDup_cons_iff in H. destruct H as [H _].
  apply H. now left.
Qed.

(** ** The lane of the player *)

(** C5. The lane is in {0,1,2} in every state the session reaches, and
    stays there under every sequence of gestures: LEFT takes one off and
    RIGHT adds one, both clamped to [0,2] without wrap-around, the other
    gestures leave the lane alone; any number of LEFTs at lane 0 leaves it
    at 0 and any number of RIGHTs at lane 2 leaves it at 2. *)
Theorem lane_clamped (gs : list (Gesture * Q)) (p : Player3D) (now : Q) (n : nat) :
  (0 <= lane p <= 2)%Z ->
  (0 <= lane (applyGestures gs p) <= 2)%Z
  /\ lane (applyGesture LEFT now p) = Z.max 0 (lane p - 1)
  /\ lane (applyGesture RIGHT now p) = Z.min 2 (lane p + 1)
  /\ lane (applyGesture JUMP now p) = lane p
  /\ lane (applyGesture NONE now p) = lane p
  /\ (lane p = 0%Z -> lane (applyGestures (repeat (LEFT, now) n) p) = 0%Z)
  /\ (lane p = 2%Z -> lane (applyGestures (repeat (RIGHT, now) n) p) = 2%Z)
  /\ (forall t cmds e, run cmds (mounted t) = Some e ->
        (0 <= lane (playerStateRef e) <= 2)%Z).
Proof.
  intros H. split; [now apply applyGestures_lane_range|].
  split.
  { rewrite applyGesture_LEFT. destruct (lane p >? 0)%Z eqn:E.
    - apply Z.gtb_lt in E. lia.
    - rewrite Z.gtb_ltb in E. apply Z.ltb_ge in E. lia. }
  split.
  { rewrite applyGesture_RIGHT. destruct (lane p <? 2)%Z eqn:E.
    - apply Z.ltb_lt in E. lia.
    - apply Z.ltb_ge in E. lia. }
  split; [simpl; now destruct (negb (isJumping p))|].
  split; [reflexivity|].
  split; [apply repeat_LEFT_at_0|].
  split; [apply repeat_RIGHT_at_2|].
  intros t cmds e Hrun.
  apply (inv_lane e). apply (run_SessionInv cmds (mounted t)); [|exact Hrun].
  apply mounted_SessionInv.
Qed.

Lemma lane_clamped_witness :
  let p := {| lane := 0%Z; isJumping := false; jumpStartTime := 0; yPosition := 0 |} in
  let gs := [(LEFT, 10); (RIGHT, 20); (RIGHT, 30); (RIGHT, 40)] in
  (0 <= lane p <= 2)%Z
  /\ lane (applyGestures gs p) = 2%Z
  /\ lane (applyGestures (repeat (LEFT, 5) 7) p) = 0%Z
  /\ (0 <= lane (playerStateRef afterTwoHits) <= 2)%Z.
Proof.
  intros p gs.
  assert (Hp : (0 <= lane p <= 2)%Z) by (simpl; lia).
  destruct (lane_clamped gs p 5 7 Hp) as (_ & _ & _ & _ & _ & HL & _ & Hreach).
  split; [exact Hp|]. split; [reflexivity|]. split; [exact (HL eq_refl)|].
  apply (Hreach 0 (firstn 3 threeHits)). vm_compute. reflexivity.
Defined.

(** ** Collisions over a whole tick *)

(** The loop leaves lives and the window alone when every colliding
    obstacle is visited inside the invincibility window. *)
Lemma obstacleLoop_quiet player speed dt clock obstacles : forall i v,
  (forall k o, nth_error obstacles k = Some o ->
     collides player (moveObstacle speed dt o) = true ->
     clock (i + k)%nat - v_lastHit v <= INVINCIBILITY_DURATION) ->
  v_game (snd (obstacleLoop player speed dt clock i obstacles v)) = v_game v
  /\ v_lastHit (snd (obstacleLoop player speed dt clock i obstacles v))
     = v_lastHit v.
Proof.
  induction obstacles as [|obs rest IH]; intros i v H; cbn [obstacleLoop].
  - split; reflexivity.
  - destruct (obstacleBody_hit player speed dt (clock i) obs v) as [Hg Hh].
    destruct (obstacleBody player speed dt (clock i) obs v) as [obs' v1].
    cbn [snd] in Hg, Hh.
    assert (E : collides player (moveObstacle speed dt obs)
                && Qgtb (clock i - v_lastHit v) INVINCIBILITY_DURATION = false).
    { destruct (collides player (moveObstacle speed dt obs)) eqn:Hc; [|reflexivity].
      cbn [andb]. apply Qgtb_false.
      specialize (H 0%nat obs eq_refl Hc). now rewrite Nat.add_0_r in H. }
    rewrite E in Hg, Hh.
    destruct (IH (S i) v1) as [I1 I2].
    { intros k o Hk Hc. rewrite Hh. cbn [Nat.add]. rewrite <- Nat.add_succ_r.
      now apply (H (S k) o). }
    destruct (obstacleLoop player speed dt clock (S i) rest v1) as [rest' v2].
    cbn [snd] in *. split; congruence.
Qed.

(** One scoring hit in the loop: the first collision outside the window,
    when the collisions after it are read within the new window. *)
Lemma obstacleLoop_one_hit player speed dt clock obstacles : forall i v k obs,
  nth_error obstacles k = Some obs ->
  collides player (moveObstacle speed dt obs) = true ->
  clock (i + k)%nat - v_lastHit v > INVINCIBILITY_DURATION ->
  (forall j o, (j < k)%nat -> nth_error obstacles j = Some o ->
     collides player (moveObstacle speed dt o) = true ->
     clock (i + j)%nat - v_lastHit v <= INVINCIBILITY_DURATION) ->
  (forall j o, (k < j)%nat -> nth_error obstacles j = Some o ->
     collides player (moveObstacle speed dt o) = true ->
     clock (i + j)%nat - clock (i + k)%nat <= INVINCIBILITY_DURATION) ->
  (exists scoreNow,
     v_game (snd (obstacleLoop player speed dt clock i obstacles v))
     = loseLife scoreNow (v_game v))
  /\ v_lastHit (snd (obstacleLoop player speed dt clock i obstacles v))
     = clock (i + k)%nat.
Proof.
  induction obstacles as [|o0 rest IH]; intros i v k obs Hk Hc Hw Hbefore Hafter.
  - destruct k; discriminate.
  - cbn [obstacleLoop].
    destruct (obstacleBody_hit player speed dt (clock i) o0 v) as [Hg Hh].
    destruct (obstacleBody player speed dt (clock i) o0 v) as [obs' v1].
    cbn [snd] in Hg, Hh.
    destruct k as [|k]; cbn [nth_error] in Hk.
    + injection Hk as ->. rewrite Nat.add_0_r in *.
      apply Qgtb_true in Hw. rewrite Hc, Hw in Hg, Hh. cbn [andb] in Hg, Hh.
      destruct (obstacleLoop_quiet player speed dt clock rest (S i) v1) as [Q1 Q2].
      { intros j o Hj Hcj. rewrite Hh. cbn [Nat.add]. rewrite <- Nat.add_succ_r.
        apply (Hafter (S j) o); [lia|exact Hj|exact Hcj]. }
      destruct (obstacleLoop player speed dt clock (S i) rest v1) as [rest' v2].
      cbn [snd] in *. split; [exists (v_score v)|]; congruence.
    + assert (E : collides player (moveObstacle speed dt o0)
                  && Qgtb (clock i - v_lastHit v) INVINCIBILITY_DURATION = false).
      { destruct (collides player (moveObstacle speed dt o0)) eqn:Hc0; [|reflexivity].
        cbn [andb]. apply Qgtb_false.
        specialize (Hbefore 0%nat o0 ltac:(lia) eq_refl Hc0).
        now rewrite Nat.add_0_r in Hbefore. }
      rewrite E in Hg, Hh.
      destruct (IH (S i) v1 k obs Hk Hc) as [[s I1] I2].
      { rewrite Hh. cbn [Nat.add]. now rewrite <- Nat.add_succ_r. }
      { intros j o Hj Hnj Hcj. rewrite Hh. cbn [Nat.add]. rewrite <- Nat.add_succ_r.
        apply (Hbefore (S j) o); [lia|exact Hnj|exact Hcj]. }
      { intros j o Hj Hnj Hcj. cbn [Nat.add]. rewrite <- !Nat.add_succ_r.
        apply (Hafter (S j) o); [lia|exact Hnj|exact Hcj]. }
      destruct (obstacleLoop player speed dt clock (S i) rest v1) as [rest' v2].
      cbn [snd] in *. cbn [Nat.add] in I2. rewrite <- Nat.add_succ_r in I2.
      split; [exists s|]; congruence.
Qed.

(** The React state and the hit time a tick leaves are those the loop
    leaves. *)
Lemma updateGameLogic_loop dt time inp e :
  let r := obstacleLoop (jumpPhysics time (playerStateRef e))
             (speedOfScore (scoreRef e)) dt (perfNow inp) 0
             (visitedObstacles time inp e)
             {| v_score := scoreRef e; v_lastHit := lastHitTimeRef e;
                v_game := gameState e; v_remove := [] |} in
  gameState (updateGameLogic dt time inp e) = v_game (snd r)
  /\ lastHitTimeRef (updateGameLogic dt time inp e) = v_lastHit (snd r).
Proof.
  unfold updateGameLogic, visitedObstacles. cbn zeta.
  destruct (obstacleLoop _ _ _ _ _ _ _) as [obs v]. split; reflexivity.
Qed.

(** C1. In a tick, an obstacle collides exactly when, once moved, it is in
    the player's lane, the player's height is below 1.1 and its depth is
    strictly between -1 and 1.  When the first collision of the tick that
    is read outside the invincibility window happens (and the collisions
    visited after it in the same tick are read within the new window),
    lives go down by exactly 1 and the window restarts at the clock value
    read at that collision.  When every collision of the tick is read
    inside the window, lives and the window are as before the tick.  Lives
    are positive in every state the session reaches with the game on. *)
Theorem collision_resolution
    (dt time : Q) (inp : TickInput) (e : Engine) :
  let player := jumpPhysics time (playerStateRef e) in
  let sp := speedOfScore (scoreRef e) in
  let visited := visitedObstacles time inp e in
  let hit k obs :=
    nth_error visited k = Some obs
    /\ collides player (moveObstacle sp dt obs) = true in
  let e' := updateGameLogic dt time inp e in
  (0 < lives (gameState e))%Z ->
  (forall obs,
     collides player (moveObstacle sp dt obs) = true <->
     o_lane obs = lane player /\ yPosition player < 1.1
     /\ -1 < o_z obs + sp * dt /\ o_z obs + sp * dt < 1)
  /\ (forall k obs,
        hit k obs ->
        perfNow inp k - lastHitTimeRef e > INVINCIBILITY_DURATION ->
        (forall j o, (j < k)%nat -> hit j o ->
           perfNow inp j - lastHitTimeRef e <= INVINCIBILITY_DURATION) ->
        (forall j o, (k < j)%nat -> hit j o ->
           perfNow inp j - perfNow inp k <= INVINCIBILITY_DURATION) ->
        lives (gameState e') = (lives (gameState e) - 1)%Z
        /\ lastHitTimeRef e' = perfNow inp k)
  /\ ((forall k obs, hit k obs ->
         perfNow inp k - lastHitTimeRef e <= INVINCIBILITY_DURATION) ->
      gameState e' = gameState e /\ lastHitTimeRef e' = lastHitTimeRef e)
  /\ (forall t cmds e0, run cmds (mounted t) = Some e0 ->
        gameOver (gameState e0) = false -> (0 < lives (gameState e0))%Z).
Proof.
  intros player sp visited hit e' Hlives.
  destruct (updateGameLogic_loop dt time inp e) as [Hg Hh].
  fold player sp visited e' in Hg, Hh.
  split; [intros obs; apply (collides_iff player (moveObstacle sp dt obs))|].
  split.
  - intros k obs [Hk Hc] Hw Hbefore Hafter.
    destruct (obstacleLoop_one_hit player sp dt (perfNow inp) visited 0
                {| v_score := scoreRef e; v_lastHit := lastHitTimeRef e;
                   v_game := gameState e; v_remove := [] |} k obs Hk Hc Hw)
      as [[s H1] H2].
    { intros j o Hj Hnj Hcj. apply (Hbefore j o Hj). split; assumption. }
    { intros j o Hj Hnj Hcj. apply (Hafter j o Hj). split; assumption. }
    rewrite Hg, Hh, H1, H2. cbn [v_game].
    split; [now apply loseLife_lives|reflexivity].
  - split.
    + intros Hquiet.
      destruct (obstacleLoop_quiet player sp dt (perfNow inp) visited 0
                  {| v_score := scoreRef e; v_lastHit := lastHitTimeRef e;
                     v_game := gameState e; v_remove := [] |}) as [H1 H2].
      { intros k o Hk Hc. apply (Hquiet k o). split; assumption. }
      rewrite Hg, Hh, H1, H2. split; reflexivity.
    + intros t cmds e0 Hrun Hon.
      assert (Hinv : SessionInv e0)
        by (apply (run_SessionInv cmds (mounted t));
            [apply mounted_SessionInv|exact Hrun]).
      pose proof (inv_lives_on e0 Hinv Hon). lia.
Qed.

Lemma collision_resolution_witness :
  let inp := exampleInput "0.11" "0.12" "0.13" 4000 in
  let e' := updateGameLogic 4 4000 inp afterStart in
  (0 < lives (gameState afterStart))%Z
  /\ lives (gameState e') = 2%Z
  /\ lastHitTimeRef e' = 4000.
Proof.
  intros inp e'.
  set (obs := {| o_id := "0.13"; o_lane := 1%Z; o_z := SPAWN_DISTANCE;
                 o_type := lava_block; passed := false |}).
  assert (Hl : (0 < lives (gameState afterStart))%Z) by (vm_compute; reflexivity).
  destruct (collision_resolution 4 4000 inp afterStart Hl) as (_ & Hhit & _).
  destruct (Hhit 0%nat obs) as [H1 H2].
  - split; vm_compute; reflexivity.
  - vm_compute. reflexivity.
  - intros j o Hj. lia.
  - intros j o Hj [Hn _]. destruct j as [|j]; [lia|].
    vm_compute in Hn. destruct j; discriminate.
  - split; [exact Hl|]. split; [exact H1|exact H2].
Defined.

(** ** Scoring over a tick *)

(** C2. An obstacle whose depth exceeds 5 once moved by a tick adds exactly
    10 to the score in that tick, gets its [passed] flag set and its id
    queued for removal, whatever the player's position and the clock are
    (so whether or not it collided); an obstacle already marked adds
    nothing.  Over the tick the score grows by 10 for each such obstacle,
    none of them is live afterwards, and every obstacle still live is
    unmarked with depth at most 5: a scored obstacle is gone and cannot be
    scored again.  Live obstacles are unmarked in every state the session
    reaches. *)
Theorem passed_obstacle_scores_once
    (dt time : Q) (inp : TickInput) (e : Engine) :
  let e' := updateGameLogic dt time inp e in
  let sp := speedOfScore (scoreRef e) in
  let visited := visitedObstacles time inp e in
  (forall o, In o (obstaclesRef e) -> passed o = false) ->
  (forall player now obs v,
     crosses sp dt obs = true ->
     let r := obstacleBody player sp dt now obs v in
     In (o_id obs) (v_remove (snd r)) /\ passed (fst r) = true
     /\ (passed obs = false -> v_score (snd r) = (v_score v + 10)%Z)
     /\ (passed obs = true -> v_score (snd r) = v_score v))
  /\ scoreRef e'
     = (scoreRef e + 10 * Z.of_nat (List.length (filter (crosses sp dt) visited)))%Z
  /\ (forall o, In o visited -> crosses sp dt o = true ->
        ~ In (o_id o) (map o_id (obstaclesRef e')))
  /\ (forall o', In o' (obstaclesRef e') -> passed o' = false /\ o_z o' <= 5)
  /\ (forall t cmds e0, run cmds (mounted t) = Some e0 ->
        forall o, In o (obstaclesRef e0) -> passed o = false).
Proof.
  intros e' sp visited Hun.
  destruct (updateGameLogic_obstacles dt time inp e) as [Hobs Hscore].
  fold e' sp visited in Hobs, Hscore.
  pose proof (visitedObstacles_unpassed time inp e Hun) as Hvis.
  fold visited in Hvis.
  split.
  { intros player now obs v Hc r.
    pose proof (obstacleBody_score player sp dt now obs v) as Hb.
    fold r in Hb. destruct r as [obs' v']. simpl.
    destruct Hb as (Ho & Hs & Hr). rewrite Hc in Hs, Hr. simpl in Hs.
    split; [rewrite Hr; apply in_or_app; right; now left|].
    split.
    { subst obs'. unfold visitObstacle. rewrite Hc. simpl.
      destruct (passed obs) eqn:E; simpl; auto. }
    split; intros Hp; rewrite Hp in Hs; simpl in Hs; lia. }
  split.
  { rewrite Hscore. now rewrite (filter_unpassed _ _ Hvis). }
  split.
  { intros o Hin Hc Hlive. rewrite Hobs in Hlive.
    apply in_map_iff in Hlive. destruct Hlive as (o' & Hid & Hin').
    apply filter_In in Hin'. destruct Hin' as [_ Hk].
    apply negb_true_iff in Hk.
    assert (includes (map o_id (filter (crosses sp dt) visited)) (o_id o') = true).
    { apply includes_In. rewrite Hid. apply in_map. apply filter_In. auto. }
    congruence. }
  split.
  2:{ intros t cmds e0 Hrun. apply (inv_unpassed e0).
      apply (run_SessionInv cmds (mounted t)); [apply mounted_SessionInv|exact Hrun]. }
  intros o' Hin. rewrite Hobs in Hin.
  apply filter_In in Hin. destruct Hin as [Hin Hk].
  apply in_map_iff in Hin. destruct Hin as (o & Ho & Hin).
  apply negb_true_iff in Hk.
  destruct (crosses sp dt o) eqn:Hc.
  - exfalso.
    assert (includes (map o_id (filter (crosses sp dt) visited)) (o_id o') = true).
    { apply includes_In. subst o'. rewrite visitObstacle_id.
      apply in_map. apply filter_In. auto. }
    congruence.
  - subst o'. unfold visitObstacle. rewrite Hc. simpl.
    split; [now apply Hvis|].
    unfold crosses in Hc. apply Qgtb_false in Hc. exact Hc.
Qed.

Lemma passed_obstacle_scores_once_witness :
  let inp := exampleInput "0.11" "0.22" "0.33" 1016 in
  let e' := updateGameLogic 0.016 1016 inp exampleRunning in
  (forall o, In o (obstaclesRef exampleRunning) -> passed o = false)
  /\ scoreRef e' = 10%Z
  /\ obstaclesRef e' = []
  /\ (forall o', In o' (obstaclesRef e') -> passed o' = false /\ o_z o' <= 5).
Proof.
  intros inp e'.
  assert (H : forall o, In o (obstaclesRef exampleRunning) -> passed o = false).
  { simpl. intros o [<-|[]]. reflexivity. }
  destruct (passed_obstacle_scores_once 0.016 1016 inp exampleRunning H)
    as (_ & Hs & _ & Hlive & _).
  split; [exact H|]. split; [exact Hs|]. split; [reflexivity|exact Hlive].
Defined.

(** ** More on the classifier *)




(** The lean part of [detectGesture], case by case. *)
Ltac lean_cases H lms :=
  destruct (Qltb _ LANE_CHANGE_COOLDOWN);
    [injection H as <- _; contradiction|];
  let n := fresh "n" in
  let El := fresh "El" in
  let Er := fresh "Er" in
  destruct (landmarkAt lms 0) as [n|]; [|discriminate];
  destruct (Qgtb (lm_x n) LEAN_THRESHOLD_LEFT) eqn:El;
    [ injection H as <- <-; cbn; split; [reflexivity|];
      split; [discriminate|]; split; [|discriminate];
      intros _; exists n; apply Qgtb_true in El; auto |];
  destruct (Qltb (lm_x n) LEAN_THRESHOLD_RIGHT) eqn:Er;
    [ injection H as <- <-; cbn; split; [reflexivity|];
      split; [discriminate|]; split; [discriminate|];
      intros _; exists n; apply Qltb_true in Er; auto |];
  injection H as <- _; contradiction.

(** X2. What a returned gesture says about the sample.  Any gesture other
    than NONE comes from a sample with both hips and both shoulders and
    leaves the calibration buffer alone.  A JUMP means the torso is more
    than JUMP_THRESHOLD_Y above the baseline, and leaves the baseline
    exactly where it was: the drift never absorbs a jump.  A LEFT means the
    nose is right of LEAN_THRESHOLD_LEFT, a RIGHT that it is left of
    LEAN_THRESHOLD_RIGHT. *)
Theorem gesture_meaning
    (landmarks : option Landmarks) (t : Q) (st st' : GestureVars) (g : Gesture) :
  detectGesture landmarks t st = (Returned g, st') ->
  g <> NONE ->
  exists lms leftHip rightHip leftShoulder rightShoulder,
    landmarks = Some lms
    /\ landmarkAt lms 23 = Some leftHip /\ landmarkAt lms 24 = Some rightHip
    /\ landmarkAt lms 11 = Some leftShoulder
    /\ landmarkAt lms 12 = Some rightShoulder
    /\ hipYHistory st' = hipYHistory st
    /\ (g = JUMP ->
        baselineHipY st' = baselineHipY st
        /\ JUMP_THRESHOLD_Y
           < baselineHipY st - torsoY leftHip rightHip leftShoulder rightShoulder
        /\ lastGestureTime st' = lastGestureTime st)
    /\ (g = LEFT ->
        exists nose, landmarkAt lms 0 = Some nose
                     /\ LEAN_THRESHOLD_LEFT < lm_x nose)
    /\ (g = RIGHT ->
        exists nose, landmarkAt lms 0 = Some nose
                     /\ lm_x nose < LEAN_THRESHOLD_RIGHT).
Proof.
  intros H Hn. unfold detectGesture in H.
  destruct landmarks as [lms|]; [|injection H as <- _; contradiction].
  cbn zeta in H.
  destruct (landmarkAt lms 23) as [lh|] eqn:E1; [|destruct (landmarkAt lms 24),
    (landmarkAt lms 11), (landmarkAt lms 12); discriminate].
  destruct (landmarkAt lms 24) as [rh|] eqn:E2; [|destruct (landmarkAt lms 11),
    (landmarkAt lms 12); discriminate].
  destruct (landmarkAt lms 11) as [ls|] eqn:E3;
    [|destruct (landmarkAt lms 12); discriminate].
  destruct (landmarkAt lms 12) as [rs|] eqn:E4; [|discriminate].
  exists lms, lh, rh, ls, rs.
  split; [reflexivity|]. split; [exact E1|]. split; [exact E2|].
  split; [exact E3|]. split; [exact E4|].
  fold (torsoY lh rh ls rs) in H.
  destruct (_ <? 30)%nat; [injection H as <- _; contradiction|].
  destruct (Qltb (Qabs (torsoY lh rh ls rs - baselineHipY st)) 0.05) eqn:Ed.
  - (* the baseline drifts: the torso is too close to it for a jump *)
    assert (Ej : Qgtb (baselineHipY st
                       + (torsoY lh rh ls rs - baselineHipY st) * 0.05
                       - torsoY lh rh ls rs) JUMP_THRESHOLD_Y = false).
    { apply Qgtb_false. apply Qltb_true, Qabs_Qlt_condition in Ed.
      unfold JUMP_THRESHOLD_Y. lra. }
    rewrite Ej in H. cbn [andb] in H. lean_cases H lms.
  - destruct (Qgtb (baselineHipY st - torsoY lh rh ls rs) JUMP_THRESHOLD_Y) eqn:Ej.
    + cbn [andb] in H. apply Qgtb_true in Ej.
      destruct (Qgtb (t - lastJumpTime st) JUMP_COOLDOWN
                && Qgtb (t - lastGestureTime st) LANE_CHANGE_COOLDOWN).
      * injection H as <- <-. cbn.
        split; [reflexivity|]. split; [auto|]. split; discriminate.
      * lean_cases H lms.
    + cbn [andb] in H. lean_cases H lms.
Qed.

Lemma gesture_meaning_witness :
  let st' := snd (detectGesture (Some (posture 0.5 0.4)) 1000 calibrated) in
  detectGesture (Some (posture 0.5 0.4)) 1000 calibrated = (Returned JUMP, st')
  /\ baselineHipY st' = baselineHipY calibrated
  /\ hipYHistory st' = hipYHistory calibrated.
Proof.
  intros st'.
  assert (H : detectGesture (Some (posture 0.5 0.4)) 1000 calibrated
              = (Returned JUMP, st')) by (vm_compute; reflexivity).
  destruct (gesture_meaning _ _ _ _ _ H ltac:(discriminate))
    as (lms & lh & rh & ls & rs & _ & _ & _ & _ & _ & Hh & HJ & _).
  destruct (HJ eq_refl) as (Hb & _ & _).
  split; [exact H|]. split; [exact Hb|exact Hh].
Defined.




(** ** Jumping *)

Lemma Qsquare_nonneg (x : Q) : 0 <= x * x.
Proof.
  destruct (Qlt_le_dec x 0).
  - setoid_replace (x * x) with ((- x) * (- x)) by ring.
    apply Qmult_le_0_compat; lra.
  - apply Qmult_le_0_compat; lra.
Qed.

(** In the air: the jump has lasted less than JUMP_DURATION. *)
Lemma jumpPhysics_airborne time p :
  isJumping p = true -> time - jumpStartTime p < 700 ->
  jumpPhysics time p
  = {| lane := lane p; isJumping := true; jumpStartTime := jumpStartTime p;
       yPosition :=
         JUMP_HEIGHT * 4 * ((time - jumpStartTime p) / 1000 / JUMP_DURATION)
         * (1 - (time - jumpStartTime p) / 1000 / JUMP_DURATION) |}.
Proof.
  intros Hj Ht. unfold jumpPhysics. rewrite Hj.
  rewrite (proj2 (Qltb_true _ _)); [reflexivity|].
  unfold JUMP_DURATION. apply Qlt_shift_div_r; [reflexivity|]. lra.
Qed.

(** Landed: the jump has lasted JUMP_DURATION or more. *)
Lemma jumpPhysics_landed time p :
  isJumping p = true -> 700 <= time - jumpStartTime p ->
  jumpPhysics time p
  = {| lane := lane p; isJumping := false; jumpStartTime := jumpStartTime p;
       yPosition := 0 |}.
Proof.
  intros Hj Ht. unfold jumpPhysics. rewrite Hj.
  rewrite (proj2 (Qltb_false _ _)); [reflexivity|].
  unfold JUMP_DURATION. apply Qle_shift_div_l; [reflexivity|]. lra.
Qed.

Lemma jump_fraction x : x / 1000 / JUMP_DURATION == x / 700.
Proof. unfold JUMP_DURATION. field. Qed.

(** X4. The jump arc.  While a jump is on and the frame time is not before
    its start, the height set by a frame is between 0 and JUMP_HEIGHT: it
    is JUMP_HEIGHT * 4 * t * (1 - t) for t the fraction of the 700 ms
    elapsed, so 0 at the start and JUMP_HEIGHT at 350 ms; from 700 ms on
    the jump is over and the height is 0.  Lane and start time are kept. *)
Theorem jump_arc (time : Q) (p : Player3D) :
  isJumping p = true ->
  jumpStartTime p <= time ->
  let p' := jumpPhysics time p in
  let elapsed := time - jumpStartTime p in
  0 <= yPosition p' /\ yPosition p' <= JUMP_HEIGHT
  /\ (elapsed < 700 ->
      isJumping p' = true
      /\ yPosition p' == JUMP_HEIGHT * 4 * (elapsed / 700) * (1 - elapsed / 700))
  /\ (700 <= elapsed -> isJumping p' = false /\ yPosition p' = 0)
  /\ (elapsed == 0 -> yPosition p' == 0)
  /\ (elapsed == 350 -> yPosition p' == JUMP_HEIGHT)
  /\ lane p' = lane p /\ jumpStartTime p' = jumpStartTime p.
Proof.
  intros Hj Hstart p' elapsed.
  assert (He : 0 <= elapsed) by (unfold elapsed; lra).
  destruct (Qlt_le_dec elapsed 700) as [Hair|Hland].
  - pose proof (jumpPhysics_airborne time p Hj Hair) as E.
    fold p' elapsed in E.
    assert (Hy : yPosition p'
                 == JUMP_HEIGHT * 4 * (elapsed / 700) * (1 - elapsed / 700)).
    { rewrite E. cbn [yPosition]. rewrite jump_fraction. reflexivity. }
    assert (Ht : 0 <= elapsed / 700 /\ elapsed / 700 < 1).
    { split; [apply Qle_shift_div_l|apply Qlt_shift_div_r];
        try reflexivity; lra. }
    destruct Ht as [Ht0 Ht1].
    set (t := elapsed / 700) in *.
    assert (H1 : 0 <= t * (1 - t)) by (apply Qmult_le_0_compat; lra).
    pose proof (Qsquare_nonneg (t - 0.5)) as H2.
    unfold JUMP_HEIGHT in *.
    split; [rewrite Hy; lra|]. split; [rewrite Hy; lra|].
    split; [intros _; split; [rewrite E; reflexivity|exact Hy]|].
    split; [intros Hl; exfalso; apply (Qlt_not_le _ _ Hair Hl)|].
    split.
    { intros H0. rewrite Hy. unfold t. rewrite H0. reflexivity. }
    split.
    { intros H0. rewrite Hy. unfold t. rewrite H0. reflexivity. }
    rewrite E. split; reflexivity.
  - pose proof (jumpPhysics_landed time p Hj Hland) as E.
    fold p' in E. rewrite E. cbn [yPosition isJumping lane jumpStartTime].
    split; [apply Qle_refl|]. split; [discriminate|].
    split; [intros Hl; exfalso; apply (Qlt_not_le _ _ Hl Hland)|].
    split; [intros _; split; reflexivity|].
    split; [intros _; reflexivity|].
    split; [intros H0; exfalso; rewrite H0 in Hland; exact (Hland eq_refl)|].
    split; reflexivity.
Qed.

Lemma jump_arc_witness :
  let p := {| lane := 1%Z; isJumping := true; jumpStartTime := 1000;
              yPosition := 0 |} in
  isJumping p = true /\ jumpStartTime p <= 1350
  /\ yPosition (jumpPhysics 1350 p) == JUMP_HEIGHT
  /\ 0 <= yPosition (jumpPhysics 1350 p).
Proof.
  intros p.
  assert (Hs : jumpStartTime p <= 1350) by (cbn; discriminate).
  destruct (jump_arc 1350 p eq_refl Hs) as (H0 & _ & _ & _ & _ & Hmid & _).
  split; [reflexivity|]. split; [exact Hs|].
  split; [apply Hmid; reflexivity|exact H0].
Defined.

Lemma updateGameLogic_player dt time inp e :
  playerStateRef (updateGameLogic dt time inp e)
  = jumpPhysics time (playerStateRef e).
Proof.
  unfold updateGameLogic.
  destruct (obstacleLoop _ _ _ _ _ _ _) as [obs v]. reflexivity.
Qed.

(** X5. From 70 ms to 630 ms into a jump the player is at least 1.26 high,
    above the 1.1 clearance: in a tick at such a time no obstacle
    collides, whatever its lane and depth, and the tick changes neither
    lives nor the rest of the React state nor the invincibility window. *)
Theorem mid_jump_is_safe (dt time : Q) (inp : TickInput) (e : Engine) :
  isJumping (playerStateRef e) = true ->
  70 <= time - jumpStartTime (playerStateRef e) ->
  time - jumpStartTime (playerStateRef e) <= 630 ->
  let e' := updateGameLogic dt time inp e in
  1.26 <= yPosition (playerStateRef e')
  /\ (forall obs, collides (playerStateRef e') obs = false)
  /\ gameState e' = gameState e
  /\ lastHitTimeRef e' = lastHitTimeRef e.
Proof.
  intros Hj Hlo Hhi e'.
  set (p := playerStateRef e) in *.
  assert (Hp : playerStateRef e' = jumpPhysics time p)
    by apply updateGameLogic_player.
  assert (Hy : 1.26 <= yPosition (jumpPhysics time p)).
  { rewrite (jumpPhysics_airborne time p Hj) by lra.
    cbn [yPosition]. rewrite jump_fraction.
    assert (Ht : 0.1 <= (time - jumpStartTime p) / 700
                 /\ (time - jumpStartTime p) / 700 <= 0.9).
    { split; [apply Qle_shift_div_l|apply Qle_shift_div_r];
        try reflexivity; lra. }
    destruct Ht as [Ht0 Ht1].
    set (t := (time - jumpStartTime p) / 700) in *.
    assert (H1 : 0 <= (t - 0.1) * (0.9 - t))
      by (apply Qmult_le_0_compat; lra).
    unfold JUMP_HEIGHT. lra. }
  assert (Hc : forall obs, collides (jumpPhysics time p) obs = false).
  { intros obs. unfold collides.
    destruct (_ && _); [|reflexivity].
    destruct (_ =? _)%Z; [|reflexivity].
    rewrite (proj2 (Qltb_false _ _)); [reflexivity|]. lra. }
  rewrite Hp. split; [exact Hy|]. split; [exact Hc|].
  destruct (updateGameLogic_loop dt time inp e) as [Hg Hh].
  fold e' p in Hg, Hh. rewrite Hg, Hh.
  apply (obstacleLoop_quiet (jumpPhysics time p)).
  intros k o _ Hco. rewrite Hc in Hco. discriminate.
Qed.

Lemma mid_jump_is_safe_witness :
  let p := {| lane := 1%Z; isJumping := true; jumpStartTime := 3900;
              yPosition := 0 |} in
  let e := setPlayerAndGesture p resetGestureState afterStart in
  let e' := updateGameLogic 4 4000 (exampleInput "0.11" "0.12" "0.13" 4000) e in
  isJumping (playerStateRef e) = true
  /\ 70 <= 4000 - jumpStartTime (playerStateRef e)
  /\ lives (gameState e') = 3%Z
  /\ 1.26 <= yPosition (playerStateRef e').
Proof.
  intros p e e'.
  assert (Hlo : 70 <= 4000 - jumpStartTime (playerStateRef e))
    by (cbn; discriminate).
  assert (Hhi : 4000 - jumpStartTime (playerStateRef e) <= 630)
    by (cbn; discriminate).
  destruct (mid_jump_is_safe 4 4000 (exampleInput "0.11" "0.12" "0.13" 4000) e
              eq_refl Hlo Hhi) as (Hy & _ & Hg & _).
  split; [reflexivity|]. split; [exact Hlo|].
  split; [fold e' in Hg; rewrite Hg; vm_compute; reflexivity|exact Hy].
Defined.

(** X6. No double jump.  A JUMP gesture on the ground starts a jump at the
    time of the gesture.  Until 700 ms later every frame keeps the jump on
    and a further JUMP gesture changes nothing, so the arc is not
    restarted; LEFT and RIGHT still change the lane in the air.  A frame
    700 ms or more after the start ends the jump, and the next JUMP
    gesture starts a new one. *)
Theorem no_double_jump (now now2 : Q) (p : Player3D) :
  isJumping p = false ->
  let p1 := applyGesture JUMP now p in
  isJumping p1 = true /\ jumpStartTime p1 = now /\ lane p1 = lane p
  /\ (forall time, time - now < 700 ->
        let p2 := jumpPhysics time p1 in
        isJumping p2 = true /\ jumpStartTime p2 = now
        /\ applyGesture JUMP now2 p2 = p2
        /\ isJumping (applyGesture LEFT now2 p2) = true
        /\ isJumping (applyGesture RIGHT now2 p2) = true)
  /\ (forall time, 700 <= time - now ->
        let p2 := jumpPhysics time p1 in
        isJumping p2 = false /\ yPosition p2 = 0
        /\ isJumping (applyGesture JUMP now2 p2) = true
        /\ jumpStartTime (applyGesture JUMP now2 p2) = now2).
Proof.
  intros Hg p1.
  assert (E1 : p1 = {| lane := lane p; isJumping := true; jumpStartTime := now;
                       yPosition := yPosition p |}).
  { unfold p1, applyGesture. rewrite Hg. reflexivity. }
  rewrite E1. cbn [isJumping jumpStartTime lane].
  split; [reflexivity|]. split; [reflexivity|]. split; [reflexivity|].
  split.
  - intros time Ht.
    rewrite jumpPhysics_airborne by (cbn; first [reflexivity|exact Ht]).
    cbn [applyGesture isJumping jumpStartTime lane negb].
    split; [reflexivity|]. split; [reflexivity|]. split; [reflexivity|].
    split; [destruct (_ >? _)%Z|destruct (_ <? _)%Z]; reflexivity.
  - intros time Ht.
    rewrite jumpPhysics_landed by (cbn; first [reflexivity|exact Ht]).
    cbn. repeat split.
Qed.

Lemma no_double_jump_witness :
  let p := {| lane := 1%Z; isJumping := false; jumpStartTime := 0;
              yPosition := 0 |} in
  let p2 := jumpPhysics 1300 (applyGesture JUMP 1000 p) in
  isJumping p = false
  /\ applyGesture JUMP 1200 p2 = p2
  /\ jumpStartTime p2 = 1000.
Proof.
  intros p p2.
  destruct (no_double_jump 1000 1200 p eq_refl) as (_ & _ & _ & Hair & _).
  destruct (Hair 1300 ltac:(reflexivity)) as (_ & Hs & Hsame & _).
  split; [reflexivity|]. split; [exact Hsame|exact Hs].
Defined.

(** ** Pausing *)

Lemma runEffects_paused c old poseChanged e0 e' :
  runEffects c old poseChanged e0 = Some e' ->
  isPausedRef e0 = isPaused old ->
  isPausedRef e' = isPaused (gameState e').
Proof.
  intros H Hs.
  pose proof (runEffects_facts _ _ _ _ _ H) as F. cbn zeta in F.
  destruct F as (G & _). rewrite G.
  unfold runEffects in H. cbn zeta in H.
  set (e1 := if negb (Bool.eqb (isPlaying old) (isPlaying (gameState e0)))
                || negb (Bool.eqb (gameOver old) (gameOver (gameState e0)))
             then gameLoopEffect c e0 else e0) in *.
  assert (G1 : gameState e1 = gameState e0 /\ isPausedRef e1 = isPausedRef e0)
    by (unfold e1; destruct (_ || _); split; reflexivity).
  destruct G1 as [G1 P1].
  set (e2 := if negb (Bool.eqb (isPaused old) (isPaused (gameState e0)))
             then pauseEffect e1 else e1) in *.
  assert (P2 : isPausedRef e2 = isPaused (gameState e0)).
  { unfold e2. destruct (Bool.eqb (isPaused old) (isPaused (gameState e0))) eqn:E;
      cbn [negb].
    - apply Bool.eqb_prop in E. congruence.
    - cbn. congruence. }
  destruct (poseChanged || _ || _).
  - apply inputEffect_facts in H. destruct H as (_ & _ & P & _). congruence.
  - injection H as <-. exact P2.
Qed.

Lemma step_paused_sync c cmd e e' :
  isPausedRef e = isPaused (gameState e) ->
  step c cmd e = Some e' ->
  isPausedRef e' = isPaused (gameState e').
Proof.
  intros Hs H. destruct cmd; cbn [step] in H;
    apply (runEffects_paused _ _ _ _ _ H); try exact Hs.
  destruct (animate_facts time inp e) as (_ & _ & P & _). congruence.
Qed.

Lemma run_paused_sync cmds : forall e e',
  isPausedRef e = isPaused (gameState e) ->
  run cmds e = Some e' ->
  isPausedRef e' = isPaused (gameState e').
Proof.
  induction cmds as [|[c cmd] rest IH]; intros e e' Hs H; cbn [run] in H.
  - now injection H as <-.
  - destruct (step c cmd e) as [e1|] eqn:E; [|discriminate].
    apply (IH e1 e'); [|assumption]. now apply (step_paused_sync c cmd e).
Qed.

Lemma idle_when_paused g :
  isPaused g = true -> negb (isPlaying g) || gameOver g || isPaused g = true.
Proof. intros ->. apply orb_true_r. Qed.

(** While paused, a frame, a pose result or the camera becoming ready
    leaves the gameplay state and the pause alone. *)
Lemma step_paused c cmd e :
  isPaused (gameState e) = true -> isPausedRef e = true ->
  frameOrPose cmd = true ->
  exists e', step c cmd e = Some e' /\ gameplay e' = gameplay e
             /\ isPaused (gameState e') = true /\ isPausedRef e' = true.
Proof.
  intros Hp Hr Hcmd.
  destruct cmd; try discriminate; cbn [step].
  - (* Frame *)
    assert (Ha : exists e0, animate time inp e = e0 /\ gameState e0 = gameState e
                            /\ gameplay e0 = gameplay e /\ isPausedRef e0 = true).
    { unfold animate. destruct (negb (isPlayingRef e)).
      - exists e. auto.
      - rewrite Hr. eexists. split; [reflexivity|]. cbn. auto. }
    destruct Ha as (e0 & -> & G & Hg & Hr0).
    unfold runEffects. rewrite G, !Bool.eqb_reflx. cbn.
    exists e0. rewrite G. auto.
  - (* Pose *)
    unfold runEffects. cbn [setPose gameState]. rewrite !Bool.eqb_reflx.
    cbn [negb orb]. rewrite inputEffect_idle.
    + eexists. split; [reflexivity|]. cbn. auto.
    + apply idle_when_paused. exact Hp.
  - (* CameraReady *)
    unfold runEffects. cbn [setGame gameState onCameraReady isPlaying gameOver isPaused].
    rewrite !Bool.eqb_reflx. cbn.
    eexists. split; [reflexivity|]. cbn. auto.
Qed.

Lemma run_paused cmds : forall e,
  isPaused (gameState e) = true -> isPausedRef e = true ->
  forallb (fun c => frameOrPose (snd c)) cmds = true ->
  exists e', run cmds e = Some e' /\ gameplay e' = gameplay e
             /\ isPaused (gameState e') = true.
Proof.
  induction cmds as [|[c cmd] rest IH]; intros e Hp Hr Hall.
  - exists e. auto.
  - cbn [forallb snd] in Hall. apply andb_true_iff in Hall.
    destruct Hall as [Hcmd Hrest].
    destruct (step_paused c cmd e Hp Hr Hcmd) as (e1 & Hs & Hg & Hp1 & Hr1).
    destruct (IH e1 Hp1 Hr1 Hrest) as (e' & Hrun & Hg' & Hp').
    exists e'. cbn [run]. rewrite Hs.
    split; [exact Hrun|]. split; [congruence|exact Hp'].
Qed.

(** X7. Pausing freezes the game.  In every state the session reaches
    with the pause flag set, any sequence of frames, pose results and
    camera-ready notifications runs to the end and leaves the gameplay
    state as it was (score, lives, player, obstacles, decorations, speed,
    hit time and the classifier's variables): no tick is simulated and no
    pose is classified. *)
Theorem paused_is_frozen
    (now : Q) (cmds later : list (Clocks * Command)) (e : Engine) :
  run cmds (mounted now) = Some e ->
  isPaused (gameState e) = true ->
  forallb (fun c => frameOrPose (snd c)) later = true ->
  exists e', run later e = Some e' /\ gameplay e' = gameplay e
             /\ isPaused (gameState e') = true.
Proof.
  intros Hrun Hp Hlater. apply run_paused; [exact Hp| |exact Hlater].
  rewrite <- Hp. apply (run_paused_sync cmds (mounted now)); [reflexivity|exact Hrun].
Qed.

Lemma paused_is_frozen_witness :
  run pausedGame (mounted 0) = Some afterPause
  /\ isPaused (gameState afterPause) = true
  /\ exists e', run whilePaused afterPause = Some e'
                /\ gameplay e' = gameplay afterPause
                /\ isPaused (gameState e') = true.
Proof.
  assert (Hrun : run pausedGame (mounted 0) = Some afterPause)
    by (vm_compute; reflexivity).
  assert (Hp : isPaused (gameState afterPause) = true) by (vm_compute; reflexivity).
  split; [exact Hrun|]. split; [exact Hp|].
  apply (paused_is_frozen 0 pausedGame whilePaused afterPause Hrun Hp).
  reflexivity.
Defined.

Lemma inputEffect_lastTime c e e' :
  inputEffect c e = Some e' -> lastTimeRef e' = lastTimeRef e.
Proof.
  unfold inputEffect. destruct (poseData e) as [pl|]; [|now intros [= <-]].
  destruct (_ || _); [now intros [= <-]|].
  destruct (detectGesture pl (c_input c) (gestureVars e)) as [[g|] gv];
    [|discriminate].
  now intros [= <-].
Qed.

(** X8. Resuming does not replay the paused time.  While paused (with the
    loop running) a frame only records its time; after the resume command
    the first frame advances the game by the time since the last paused
    frame, not since the pause began. *)
Theorem resume_rebaselines_clock
    (c : Clocks) (t1 t2 : Q) (inp1 inp2 : TickInput) (e resumed : Engine) :
  isPlayingRef e = true ->
  isPausedRef e = true ->
  isPaused (gameState e) = true ->
  step c Resume (animate t1 inp1 e) = Some resumed ->
  animate t1 inp1 e = setLastTime t1 e
  /\ lastTimeRef resumed = t1
  /\ isPausedRef resumed = false
  /\ animate t2 inp2 resumed
     = updateGameLogic ((t2 - t1) / 1000) t2 inp2 (setLastTime t2 resumed).
Proof.
  intros Hplay Hpr Hp Hres.
  assert (Ha : animate t1 inp1 e = setLastTime t1 e).
  { unfold animate. rewrite Hplay, Hpr. reflexivity. }
  rewrite Ha in Hres. split; [exact Ha|].
  cbn [step] in Hres. unfold runEffects in Hres.
  cbn [setGame gameState handleResume setLastTime isPlaying gameOver isPaused]
    in Hres.
  rewrite !Bool.eqb_reflx, Hp in Hres. cbn [negb orb Bool.eqb] in Hres.
  apply inputEffect_facts in Hres as F.
  destruct F as (_ & Fplay & Fpause & _).
  apply inputEffect_lastTime in Hres.
  cbn in Hres, Fplay, Fpause.
  split; [exact Hres|]. split; [exact Fpause|].
  unfold animate. rewrite Fplay, Hplay, Fpause, Hres. reflexivity.
Qed.

Lemma resume_rebaselines_clock_witness :
  let inp := exampleInput "0.11" "0.12" "0.13" 4000 in
  exists resumed,
    step (exampleClocks 4100) Resume (animate 4000 inp afterPause) = Some resumed
    /\ lastTimeRef resumed = 4000
    /\ animate 4016 inp resumed
       = updateGameLogic ((4016 - 4000) / 1000) 4016 inp (setLastTime 4016 resumed).
Proof.
  intros inp.
  destruct (step (exampleClocks 4100) Resume (animate 4000 inp afterPause))
    as [resumed|] eqn:E; [|vm_compute in E; discriminate].
  exists resumed.
  destruct (resume_rebaselines_clock (exampleClocks 4100) 4000 4016 inp inp
              afterPause resumed) as (_ & H1 & _ & H2);
    try (vm_compute; reflexivity).
  - exact E.
  - split; [reflexivity|]. split; [exact H1|exact H2].
Defined.

(** ** Before the start, and starting *)

Lemma idle_when_not_playing g :
  isPlaying g = false -> negb (isPlaying g) || gameOver g || isPaused g = true.
Proof. intros ->. reflexivity. Qed.

Lemma step_not_started c cmd e :
  isPlaying (gameState e) = false -> isPlayingRef e = false ->
  notRestart cmd = true ->
  exists e', step c cmd e = Some e' /\ gameplay e' = gameplay e
             /\ isPlaying (gameState e') = false /\ isPlayingRef e' = false.
Proof.
  intros Hoff Hstop Hcmd.
  destruct cmd; try discriminate; cbn [step].
  - unfold animate. rewrite Hstop. cbn [negb].
    unfold runEffects. rewrite !Bool.eqb_reflx. cbn.
    exists e. auto.
  - unfold runEffects. cbn [setPose gameState]. rewrite !Bool.eqb_reflx.
    cbn [negb orb]. rewrite inputEffect_idle.
    + eexists. split; [reflexivity|]. cbn. auto.
    + apply idle_when_not_playing. exact Hoff.
  - unfold runEffects. cbn [setGame gameState handlePause isPlaying gameOver isPaused].
    rewrite !Bool.eqb_reflx. cbn [negb orb].
    destruct (negb (Bool.eqb (isPaused (gameState e)) true)).
    + rewrite inputEffect_idle.
      * eexists. split; [reflexivity|]. cbn. auto.
      * apply idle_when_not_playing. exact Hoff.
    + eexists. split; [reflexivity|]. cbn. auto.
  - unfold runEffects. cbn [setGame gameState handleResume isPlaying gameOver isPaused].
    rewrite !Bool.eqb_reflx. cbn [negb orb].
    destruct (negb (Bool.eqb (isPaused (gameState e)) false)).
    + rewrite inputEffect_idle.
      * eexists. split; [reflexivity|]. cbn. auto.
      * apply idle_when_not_playing. exact Hoff.
    + eexists. split; [reflexivity|]. cbn. auto.
  - unfold runEffects. cbn [setGame gameState onCameraReady isPlaying gameOver isPaused].
    rewrite !Bool.eqb_reflx. cbn.
    eexists. split; [reflexivity|]. cbn. auto.
Qed.

(** X9. Nothing happens before the start.  From the mounted engine, every
    sequence of commands without a start runs to the end and leaves the
    gameplay state as mounted: frames simulate nothing and pose results
    are not classified, so calibration only begins once a game is on. *)
Theorem nothing_before_start (now : Q) (cmds : list (Clocks * Command)) :
  forallb (fun c => notRestart (snd c)) cmds = true ->
  exists e, run cmds (mounted now) = Some e
            /\ gameplay e = gameplay (mounted now)
            /\ gestureVars e = resetGestureState.
Proof.
  intros Hall.
  assert (Hgen : forall cmds e,
            isPlaying (gameState e) = false -> isPlayingRef e = false ->
            forallb (fun c => notRestart (snd c)) cmds = true ->
            exists e', run cmds e = Some e' /\ gameplay e' = gameplay e).
  { clear. induction cmds as [|[c cmd] rest IH]; intros e Hoff Hstop Hall.
    - exists e. auto.
    - cbn [forallb snd] in Hall. apply andb_true_iff in Hall.
      destruct Hall as [Hcmd Hrest].
      destruct (step_not_started c cmd e Hoff Hstop Hcmd)
        as (e1 & Hs & Hg & Ho & Hp).
      destruct (IH e1 Ho Hp Hrest) as (e' & Hr & Hg').
      exists e'. cbn [run]. rewrite Hs. split; [exact Hr|congruence]. }
  destruct (Hgen cmds (mounted now) eq_refl eq_refl Hall) as (e & Hr & Hg).
  exists e. split; [exact Hr|]. split; [exact Hg|].
  unfold gameplay in Hg. now injection Hg.
Qed.

Lemma nothing_before_start_witness :
  exists e, run whilePaused (mounted 0) = Some e
            /\ gameplay e = gameplay (mounted 0)
            /\ gestureVars e = resetGestureState.
Proof.
  apply (nothing_before_start 0 whilePaused). reflexivity.
Defined.

(** X10. Starting resets everything.  When no game is on (not playing, or
    game over), a start or restart command that completes leaves a fresh
    session: score 0, three lives, speed START_SPEED, no obstacle and no
    decoration, no hit time, the player on the ground in the middle lane,
    the loop running with its timers at the clock values read, and the
    classifier reset but for at most one calibration sample (the latest
    pose, fed by the input effect); none when there is no pose yet. *)
Theorem start_resets (c : Clocks) (cmd : Command) (e e' : Engine) :
  cmd = Start \/ cmd = Restart ->
  isPlaying (gameState e) = false \/ gameOver (gameState e) = true ->
  step c cmd e = Some e' ->
  gameState e'
  = {| isPlaying := true; isPaused := false; score := 0; gameOver := false;
       speed := speed (gameState e); cameraReady := cameraReady (gameState e);
       lastLaneChange := lastLaneChange (gameState e); lives := 3 |}
  /\ scoreRef e' = 0%Z /\ speedRef e' = START_SPEED
  /\ obstaclesRef e' = [] /\ decorationsRef e' = []
  /\ lastHitTimeRef e' = 0
  /\ playerStateRef e'
     = {| lane := 1%Z; isJumping := false; jumpStartTime := 0; yPosition := 0 |}
  /\ isPlayingRef e' = true
  /\ lastTimeRef e' = c_loop c /\ lastSpawnTimeRef e' = c_reset c
  /\ lastDecorSpawnTimeRef e' = c_reset c
  /\ (List.length (hipYHistory (gestureVars e')) <= 1)%nat
  /\ lastJumpTime (gestureVars e') = 0 /\ lastGestureTime (gestureVars e') = 0
  /\ (poseData e = None -> gestureVars e' = resetGestureState).
Proof.
  intros Hcmd Hidle H.
  assert (Hs : runEffects c (gameState e) false (setGame (handleStart (gameState e)) e)
               = Some e').
  { destruct Hcmd as [-> | ->]; exact H. }
  clear H. unfold runEffects in Hs.
  cbn [setGame gameState handleStart isPlaying gameOver isPaused] in Hs.
  assert (Hdeps : negb (Bool.eqb (isPlaying (gameState e)) true)
                  || negb (Bool.eqb (gameOver (gameState e)) false) = true).
  { destruct Hidle as [-> | ->]; [reflexivity|apply orb_true_r]. }
  rewrite Hdeps in Hs. rewrite orb_true_r in Hs. cbn [orb] in Hs.
  set (e1 := gameLoopEffect c (setGame (handleStart (gameState e)) e)) in *.
  set (e2 := if negb (Bool.eqb (isPaused (gameState e)) false)
             then pauseEffect e1 else e1) in *.
  assert (H2 : gameState e2 = handleStart (gameState e)
               /\ poseData e2 = poseData e
               /\ gestureVars e2 = resetGestureState
               /\ playerStateRef e2
                  = {| lane := 1%Z; isJumping := false; jumpStartTime := 0;
                       yPosition := 0 |}
               /\ forall gv,
                    let r := setPlayerAndGesture (playerStateRef e2) gv e2 in
                    scoreRef r = 0%Z /\ speedRef r = START_SPEED
                    /\ obstaclesRef r = [] /\ decorationsRef r = []
                    /\ lastHitTimeRef r = 0 /\ isPlayingRef r = true
                    /\ lastTimeRef r = c_loop c /\ lastSpawnTimeRef r = c_reset c
                    /\ lastDecorSpawnTimeRef r = c_reset c).
  { unfold e2, e1. destruct (negb _); cbn; repeat split. }
  destruct H2 as (G & P & V & Pl & R).
  assert (Hsame : e2 = setPlayerAndGesture (playerStateRef e2) (gestureVars e2) e2)
    by (destruct e2; reflexivity).
  unfold inputEffect in Hs. rewrite P, G, V in Hs.
  cbn [handleStart isPlaying gameOver isPaused negb orb] in Hs.
  destruct (poseData e) as [pl|].
  - unfold detectGesture in Hs. destruct pl as [lms|].
    + destruct (landmarkAt lms 23) as [lh|];
        [|destruct (landmarkAt lms 24), (landmarkAt lms 11), (landmarkAt lms 12);
          discriminate].
      destruct (landmarkAt lms 24) as [rh|];
        [|destruct (landmarkAt lms 11), (landmarkAt lms 12); discriminate].
      destruct (landmarkAt lms 11) as [ls|];
        [|destruct (landmarkAt lms 12); discriminate].
      destruct (landmarkAt lms 12) as [rs|]; [|discriminate].
      cbn in Hs. injection Hs as <-.
      destruct (R {| hipYHistory := [(lm_y lh + lm_y rh + lm_y ls + lm_y rs) / 4];
                     baselineHipY :=
                       sumY [(lm_y lh + lm_y rh + lm_y ls + lm_y rs) / 4]
                       / inject_Z (Z.of_nat 1);
                     lastJumpTime := 0; lastGestureTime := 0 |})
        as (R1 & R2 & R3 & R4 & R5 & R6 & R7 & R8 & R9).
      rewrite Pl in *. cbn [setPlayerAndGesture gameState playerStateRef
        gestureVars hipYHistory lastJumpTime lastGestureTime List.length].
      cbn [setPlayerAndGesture scoreRef speedRef obstaclesRef decorationsRef
           lastHitTimeRef isPlayingRef lastTimeRef lastSpawnTimeRef
           lastDecorSpawnTimeRef] in R1, R2, R3, R4, R5, R6, R7, R8, R9.
      rewrite G. repeat split; try assumption; try lia; discriminate.
    + cbn in Hs. injection Hs as <-.
      destruct (R resetGestureState) as (R1 & R2 & R3 & R4 & R5 & R6 & R7 & R8 & R9).
      rewrite Pl in *. cbn [setPlayerAndGesture gameState playerStateRef
        gestureVars hipYHistory lastJumpTime lastGestureTime List.length
        resetGestureState].
      cbn [setPlayerAndGesture scoreRef speedRef obstaclesRef decorationsRef
           lastHitTimeRef isPlayingRef lastTimeRef lastSpawnTimeRef
           lastDecorSpawnTimeRef] in R1, R2, R3, R4, R5, R6, R7, R8, R9.
      rewrite G. repeat split; try assumption; try lia; try discriminate.
  - injection Hs as <-.
    destruct (R (gestureVars e2)) as (R1 & R2 & R3 & R4 & R5 & R6 & R7 & R8 & R9).
    rewrite <- Hsame in *. rewrite G, V, Pl. cbn.
    repeat split; try assumption; lia.
Qed.

Lemma start_resets_witness :
  gameOver (gameState afterThreeHits) = true
  /\ exists e', step (exampleClocks 20000) Restart afterThreeHits = Some e'
                /\ lives (gameState e') = 3%Z /\ scoreRef e' = 0%Z
                /\ obstaclesRef e' = [] /\ isPlayingRef e' = true
                /\ gestureVars e' = resetGestureState.
Proof.
  assert (Hover : gameOver (gameState afterThreeHits) = true)
    by (vm_compute; reflexivity).
  split; [exact Hover|].
  destruct (step (exampleClocks 20000) Restart afterThreeHits) as [e'|] eqn:E;
    [|vm_compute in E; discriminate].
  exists e'.
  destruct (start_resets (exampleClocks 20000) Restart afterThreeHits e'
              (or_intror eq_refl) (or_intror Hover) E)
    as (Hg & Hs & _ & Ho & _ & _ & _ & Hp & _ & _ & _ & _ & _ & _ & Hv).
  split; [reflexivity|]. split; [rewrite Hg; reflexivity|].
  split; [exact Hs|]. split; [exact Ho|]. split; [exact Hp|].
  apply Hv. vm_compute. reflexivity.
Defined.

(** ** The last hit *)

(** Along the loop the score only grows, and once the game-over update has
    been applied the score it stored lies between the score the tick
    started with and the current one. *)
Lemma obstacleLoop_reported player speed dt clock obstacles : forall i v s0,
  (s0 <= v_score v)%Z ->
  (gameOver (v_game v) = true -> (s0 <= score (v_game v) <= v_score v)%Z) ->
  let v' := snd (obstacleLoop player speed dt clock i obstacles v) in
  (v_score v <= v_score v')%Z
  /\ (gameOver (v_game v') = true -> (s0 <= score (v_game v') <= v_score v')%Z).
Proof.
  induction obstacles as [|obs rest IH]; intros i v s0 Hs Hg; cbn [obstacleLoop].
  - cbn. split; [lia|exact Hg].
  - destruct (obstacleBody_hit player speed dt (clock i) obs v) as [Bg _].
    pose proof (obstacleBody_score player speed dt (clock i) obs v) as Bs.
    destruct (obstacleBody player speed dt (clock i) obs v) as [obs' v1].
    cbn [snd] in Bg. destruct Bs as (_ & Bs & _).
    assert (H1 : (v_score v <= v_score v1)%Z)
      by (rewrite Bs; destruct (crosses speed dt obs && negb (passed obs)); lia).
    assert (H2 : gameOver (v_game v1) = true ->
                 (s0 <= score (v_game v1) <= v_score v1)%Z).
    { rewrite Bg. destruct (_ && _).
      - unfold loseLife. destruct (_ <=? _)%Z; cbn.
        + intros _. lia.
        + intros Ho. specialize (Hg Ho). lia.
      - intros Ho. specialize (Hg Ho). lia. }
    specialize (IH (S i) v1 s0 ltac:(lia) H2).
    destruct (obstacleLoop player speed dt clock (S i) rest v1) as [rest' v2].
    cbn [snd] in *. destruct IH as [I1 I2]. split; [lia|exact I2].
Qed.

Lemma updateGameLogic_reported dt time inp e :
  gameOver (gameState e) = false ->
  gameOver (gameState (updateGameLogic dt time inp e)) = true ->
  (scoreRef e <= score (gameState (updateGameLogic dt time inp e))
   <= scoreRef (updateGameLogic dt time inp e))%Z.
Proof.
  intros Hon Hover.
  unfold updateGameLogic in *.
  match goal with
  | |- context [obstacleLoop ?p ?s ?d ?c ?i ?l ?v] =>
    pose proof (obstacleLoop_reported p s d c l i v (scoreRef e)) as H;
    destruct (obstacleLoop p s d c i l v) as [obs' v']
  end.
  cbn in H, Hover |- *. apply H; [lia| |exact Hover].
  intros Ho. congruence.
Qed.

Lemma hits_game_over g g' :
  hits g g' -> gameOver g = false -> gameOver g' = true -> lives g' = 0%Z.
Proof.
  induction 1 as [g|g g' s H IH]; intros Hon Hover; [congruence|].
  unfold loseLife in *. destruct (lives g' - 1 <=? 0)%Z eqn:E; cbn in *.
  - reflexivity.
  - apply Z.leb_gt in E. specialize (IH Hon Hover). lia.
Qed.

(** X11. The frame that ends the game.  When a frame turns a running game
    into game over, lives are 0, the score stored in the React state for
    the game-over screen lies between the score before that frame and the
    score after it, and the game-loop effect then stops the loop and
    resets the refs: score ref 0, speed START_SPEED, no obstacle, no
    decoration. *)
Theorem game_over_transition
    (c : Clocks) (time : Q) (inp : TickInput) (e e' : Engine) :
  step c (Frame time inp) e = Some e' ->
  gameOver (gameState e) = false ->
  gameOver (gameState e') = true ->
  lives (gameState e') = 0%Z
  /\ (scoreRef e <= score (gameState e') <= scoreRef (animate time inp e))%Z
  /\ isPlayingRef e' = false
  /\ scoreRef e' = 0%Z /\ speedRef e' = START_SPEED
  /\ obstaclesRef e' = [] /\ decorationsRef e' = [].
Proof.
  intros H Hon Hover. cbn [step] in H.
  apply runEffects_facts in H. cbn zeta in H.
  destruct H as (G & P & O & D & S & V & _).
  rewrite G in Hover |- *.
  destruct (animate_facts time inp e) as (Hh & _).
  rewrite Hon, Hover in P, O, D, S, V.
  cbn [Bool.eqb negb orb] in P, O, D, S, V. rewrite orb_true_r in P, O, D, S, V.
  split; [exact (hits_game_over _ _ Hh Hon Hover)|].
  split.
  { unfold animate in *.
    destruct (negb (isPlayingRef e)); [congruence|].
    destruct (isPausedRef e); [cbn in Hover; congruence|].
    apply (updateGameLogic_reported _ time inp (setLastTime time e));
      [exact Hon|exact Hover]. }
  rewrite P, O, D, S, V. cbn. rewrite Hover.
  rewrite andb_false_r. repeat split.
Qed.

Lemma game_over_transition_witness :
  let inp := exampleInput "0.31" "0.32" "0.33" 12000 in
  step (exampleClocks 12000) (Frame 12000 inp) afterTwoHits = Some afterThreeHits
  /\ gameOver (gameState afterTwoHits) = false
  /\ gameOver (gameState afterThreeHits) = true
  /\ (scoreRef afterTwoHits <= score (gameState afterThreeHits)
      <= scoreRef (animate 12000 inp afterTwoHits))%Z
  /\ scoreRef afterThreeHits = 0%Z.
Proof.
  intros inp.
  assert (Hs : step (exampleClocks 12000) (Frame 12000 inp) afterTwoHits
               = Some afterThreeHits) by (vm_compute; reflexivity).
  assert (Hon : gameOver (gameState afterTwoHits) = false)
    by (vm_compute; reflexivity).
  assert (Hover : gameOver (gameState afterThreeHits) = true)
    by (vm_compute; reflexivity).
  destruct (game_over_transition _ _ _ _ _ Hs Hon Hover)
    as (_ & Hb & _ & Hz & _).
  split; [exact Hs|]. split; [exact Hon|]. split; [exact Hover|].
  split; [exact Hb|exact Hz].
Defined.

(** ** Lives *)

Lemma hits_lives g g' :
  hits g g' ->
  (gameOver g = false -> (1 <= lives g <= 3)%Z) ->
  (gameOver g = true -> lives g = 0%Z) ->
  (0 <= lives g' <= lives g)%Z.
Proof.
  intros H Ha Hb.
  assert (H0 : (0 <= lives g)%Z).
  { destruct (gameOver g); [rewrite Hb by reflexivity|specialize (Ha eq_refl)]; lia. }
  induction H as [g|g g' s H IH]; [lia|].
  specialize (IH Ha Hb H0).
  unfold loseLife. destruct (lives g' - 1 <=? 0)%Z eqn:E; cbn; [lia|].
  apply Z.leb_gt in E. lia.
Qed.

(** X12. Lives stay within 0..3 in every state the session reaches, and a
    frame never gives a life back: after any frame lives are at most what
    they were, and still at least 0. *)
Theorem lives_never_increase
    (now : Q) (cmds : list (Clocks * Command)) (e : Engine)
    (time : Q) (inp : TickInput) :
  run cmds (mounted now) = Some e ->
  (0 <= lives (gameState e) <= 3)%Z
  /\ (0 <= lives (gameState (animate time inp e)) <= lives (gameState e))%Z.
Proof.
  intros Hrun.
  pose proof (run_SessionInv cmds _ _ (mounted_SessionInv now) Hrun) as Hinv.
  destruct Hinv as [_ Hl1 Hl2 _ _].
  split.
  - destruct (gameOver (gameState e));
      [rewrite Hl2 by reflexivity|specialize (Hl1 eq_refl)]; lia.
  - destruct (animate_facts time inp e) as (Hh & _).
    now apply hits_lives.
Qed.

Lemma lives_never_increase_witness :
  let inp := exampleInput "0.31" "0.32" "0.33" 12000 in
  run (firstn 3 threeHits) (mounted 0) = Some afterTwoHits
  /\ lives (gameState afterTwoHits) = 1%Z
  /\ (0 <= lives (gameState (animate 12000 inp afterTwoHits))
      <= lives (gameState afterTwoHits))%Z.
Proof.
  intros inp.
  assert (Hrun : run (firstn 3 threeHits) (mounted 0) = Some afterTwoHits)
    by (vm_compute; reflexivity).
  destruct (lives_never_increase 0 (firstn 3 threeHits) afterTwoHits 12000 inp Hrun)
    as [_ H].
  split; [exact Hrun|]. split; [vm_compute; reflexivity|exact H].
Defined.

(** ** Complete poses never throw *)

Lemma detectGesture_complete pl t st :
  completePose pl = true -> fst (detectGesture pl t st) <> TypeError.
Proof.
  unfold completePose, detectGesture. destruct pl as [lms|]; [|discriminate].
  destruct (landmarkAt lms 0) as [n|]; [|discriminate].
  destruct (landmarkAt lms 11); [|discriminate].
  destruct (landmarkAt lms 12); [|discriminate].
  destruct (landmarkAt lms 23); [|discriminate].
  destruct (landmarkAt lms 24); [|discriminate].
  intros _. cbn zeta.
  destruct (_ <? 30)%nat; [discriminate|].
  destruct (_ && _); [discriminate|].
  destruct (Qltb _ LANE_CHANGE_COOLDOWN); [discriminate|].
  destruct (Qgtb _ LEAN_THRESHOLD_LEFT); [discriminate|].
  destruct (Qltb _ LEAN_THRESHOLD_RIGHT); discriminate.
Qed.

Lemma inputEffect_complete c e :
  (forall pl, poseData e = Some pl -> completePose pl = true) ->
  exists e', inputEffect c e = Some e' /\ poseData e' = poseData e.
Proof.
  intros Hok. unfold inputEffect.
  destruct (poseData e) as [pl|] eqn:E; [|exists e; auto].
  destruct (_ || _); [exists e; auto|].
  pose proof (detectGesture_complete pl (c_input c) (gestureVars e) (Hok pl eq_refl))
    as Hn.
  destruct (detectGesture pl (c_input c) (gestureVars e)) as [[g|] gv];
    [|exfalso; apply Hn; reflexivity].
  eexists. split; [reflexivity|]. cbn. exact E.
Qed.

Lemma runEffects_complete c old poseChanged e0 :
  (forall pl, poseData e0 = Some pl -> completePose pl = true) ->
  exists e', runEffects c old poseChanged e0 = Some e'
             /\ poseData e' = poseData e0.
Proof.
  intros Hok. unfold runEffects. cbn zeta.
  set (e1 := if _ || _ then gameLoopEffect c e0 else e0).
  assert (P1 : poseData e1 = poseData e0)
    by (unfold e1; destruct (_ || _); reflexivity).
  set (e2 := if negb (Bool.eqb (isPaused old) _) then pauseEffect e1 else e1).
  assert (P2 : poseData e2 = poseData e0)
    by (unfold e2; destruct (negb (Bool.eqb (isPaused old) _)); exact P1).
  destruct (poseChanged || _ || _).
  - destruct (inputEffect_complete c e2) as (e' & H & P).
    { rewrite P2. exact Hok. }
    exists e'. split; [exact H|congruence].
  - exists e2. auto.
Qed.

Lemma step_complete c cmd e :
  (forall pl, poseData e = Some pl -> completePose pl = true) ->
  completePoseCommand cmd = true ->
  exists e', step c cmd e = Some e'
             /\ (forall pl, poseData e' = Some pl -> completePose pl = true).
Proof.
  intros Hok Hcmd.
  destruct cmd; cbn [step];
    match goal with
    | |- exists e', runEffects ?c ?old ?b ?e0 = Some e' /\ _ =>
      destruct (runEffects_complete c old b e0) as (e' & H & P);
        [|exists e'; split; [exact H|rewrite P]]
    end; try exact Hok.
  - destruct (animate_facts time inp e) as (_ & _ & _ & Hp & _).
    rewrite Hp. exact Hok.
  - destruct (animate_facts time inp e) as (_ & _ & _ & Hp & _).
    rewrite Hp. exact Hok.
  - cbn. intros pl [= <-]. exact Hcmd.
  - cbn. intros pl [= <-]. exact Hcmd.
Qed.

(** X13. With complete poses the engine never throws.  When every pose
    result delivered has either no landmark list or a list with the nose,
    both shoulders and both hips, every sequence of commands runs to the
    end from the mounted engine: [detectGesture] never reads a property of
    a missing landmark. *)
Theorem complete_poses_never_throw (now : Q) (cmds : list (Clocks * Command)) :
  forallb (fun c => completePoseCommand (snd c)) cmds = true ->
  exists e, run cmds (mounted now) = Some e.
Proof.
  intros Hall.
  assert (Hgen : forall cmds e,
            (forall pl, poseData e = Some pl -> completePose pl = true) ->
            forallb (fun c => completePoseCommand (snd c)) cmds = true ->
            exists e', run cmds e = Some e').
  { clear. induction cmds as [|[c cmd] rest IH]; intros e Hok Hall.
    - exists e. reflexivity.
    - cbn [forallb snd] in Hall. apply andb_true_iff in Hall.
      destruct Hall as [Hcmd Hrest].
      destruct (step_complete c cmd e Hok Hcmd) as (e1 & Hs & Hok1).
      destruct (IH e1 Hok1 Hrest) as (e' & Hr).
      exists e'. cbn [run]. rewrite Hs. exact Hr. }
  apply Hgen; [|exact Hall]. cbn. discriminate.
Qed.

Lemma complete_poses_never_throw_witness :
  exists e, run (threeHits ++ [(exampleClocks 20000, Restart)] ++ whilePaused)
              (mounted 0) = Some e.
Proof.
  apply complete_poses_never_throw. reflexivity.
Defined.

(** ** Decorations *)

Lemma moveDecorations_culled speed dt decorations :
  forall d, In d (moveDecorations speed dt decorations) -> d_z d <= 20.
Proof.
  intros d Hin. unfold moveDecorations in Hin. cbn zeta in Hin.
  apply filter_In in Hin. destruct Hin as [Hin Hk].
  apply negb_true_iff in Hk.
  destruct (Qgtb (d_z d) 20) eqn:E; [|now apply Qgtb_false in E].
  exfalso.
  assert (includes
            (map d_id (filter (fun dec => Qgtb (d_z dec) 20)
                         (map (advanceDecoration speed dt) decorations)))
            (d_id d) = true).
  { apply includes_In. apply in_map. apply filter_In. auto. }
  congruence.
Qed.

Lemma moveDecorations_length speed dt decorations :
  (List.length (moveDecorations speed dt decorations)
   <= List.length decorations)%nat.
Proof.
  unfold moveDecorations. cbn zeta.
  eapply Nat.le_trans; [apply filter_length_le|]. now rewrite length_map.
Qed.

(** X14. Decorations are cosmetic.  What a tick does to the React state,
    the score, the speed, the player, the obstacles, the hit time and the
    obstacle timer is the same whatever the live decorations, the
    decoration timer and the decoration draws are.  A tick adds at most
    two decorations, and every decoration it leaves has depth at most
    20. *)
Theorem decorations_are_cosmetic
    (dt time : Q) (inp : TickInput) (e : Engine)
    (decorations : list Decoration3D) (lastDecor : Q) (d1 d2 : DecorationDraw) :
  let e1 := updateGameLogic dt time inp e in
  let e2 := updateGameLogic dt time (setDecorDraws d1 d2 inp)
              (setDecorations decorations lastDecor e) in
  gameState e2 = gameState e1 /\ scoreRef e2 = scoreRef e1
  /\ speedRef e2 = speedRef e1 /\ playerStateRef e2 = playerStateRef e1
  /\ obstaclesRef e2 = obstaclesRef e1 /\ lastHitTimeRef e2 = lastHitTimeRef e1
  /\ lastSpawnTimeRef e2 = lastSpawnTimeRef e1
  /\ (List.length (decorationsRef e1) <= List.length (decorationsRef e) + 2)%nat
  /\ (forall d, In d (decorationsRef e1) -> d_z d <= 20).
Proof.
  intros e1 e2.
  assert (Hsame : gameState e2 = gameState e1 /\ scoreRef e2 = scoreRef e1
                  /\ speedRef e2 = speedRef e1
                  /\ playerStateRef e2 = playerStateRef e1
                  /\ obstaclesRef e2 = obstaclesRef e1
                  /\ lastHitTimeRef e2 = lastHitTimeRef e1
                  /\ lastSpawnTimeRef e2 = lastSpawnTimeRef e1).
  { unfold e1, e2, updateGameLogic.
    cbn [setDecorations setDecorDraws scoreRef playerStateRef lastSpawnTimeRef
         obstaclesRef obstacleDraw perfNow lastHitTimeRef gameState].
    destruct (obstacleLoop _ _ _ _ _ _ _) as [obs v]. cbn. repeat split. }
  destruct Hsame as (A & B & C & D & E & F & G).
  do 7 (split; [assumption|]).
  unfold e1. rewrite updateGameLogic_decorations. cbn zeta.
  split; [|apply moveDecorations_culled].
  eapply Nat.le_trans; [apply moveDecorations_length|].
  destruct (Qgtb _ _); [|lia].
  unfold spawnDecoration. rewrite !length_app. cbn [List.length]. lia.
Qed.

(** ** Spawning obstacles *)


Lemma floor_of_lane_draw r :
  0 <= r -> r < 1 -> (0 <= Qfloor (r * 3) <= 2)%Z.
Proof.
  intros H0 H1. split.
  - change 0%Z with (Qfloor 0). apply Qfloor_resp_le. lra.
  - assert (H : (Qfloor (r * 3) < 3)%Z).
    { rewrite Zlt_Qlt. eapply Qle_lt_trans; [apply Qfloor_le|].
      change (inject_Z 3) with 3. lra. }
    lia.
Qed.



(** Every obstacle a tick leaves is a visited one, moved, that did not
    cross depth 5. *)
Lemma updateGameLogic_live dt time inp e o' :
  In o' (obstaclesRef (updateGameLogic dt time inp e)) ->
  exists o, In o (visitedObstacles time inp e)
            /\ o' = moveObstacle (speedOfScore (scoreRef e)) dt o
            /\ o_z o' <= 5.
Proof.
  intros Hin.
  destruct (updateGameLogic_obstacles dt time inp e) as [Hobs _].
  rewrite Hobs in Hin. apply filter_In in Hin. destruct Hin as [Hin Hk].
  apply in_map_iff in Hin. destruct Hin as (o & Ho & Hin).
  apply negb_true_iff in Hk. exists o. split; [exact Hin|].
  destruct (crosses (speedOfScore (scoreRef e)) dt o) eqn:Hc.
  - exfalso.
    assert (includes (map o_id (filter (crosses (speedOfScore (scoreRef e)) dt)
                                  (visitedObstacles time inp e))) (o_id o') = true).
    { apply includes_In. subst o'. rewrite visitObstacle_id.
      apply in_map. apply filter_In. auto. }
    congruence.
  - subst o'. unfold visitObstacle. rewrite Hc. split; [reflexivity|].
    unfold crosses in Hc. now apply Qgtb_false in Hc.
Qed.

Lemma animate_lanes time inp e :
  laneDrawInRange (Frame time inp) ->
  (forall o, In o (obstaclesRef e) ->
     (0 <= o_lane o <= 2)%Z /\ o_type o = lava_block /\ o_z o <= 5) ->
  forall o, In o (obstaclesRef (animate time inp e)) ->
    (0 <= o_lane o <= 2)%Z /\ o_type o = lava_block /\ o_z o <= 5.
Proof.
  intros [Hr0 Hr1] Hinv o. unfold animate.
  destruct (negb (isPlayingRef e)); [apply Hinv|].
  destruct (isPausedRef e); [apply Hinv|].
  intros Hin. apply updateGameLogic_live in Hin.
  destruct Hin as (o0 & Hin & -> & Hz).
  split; [|split; [|exact Hz]].
  - cbn [moveObstacle o_lane]. unfold visitedObstacles, spawnObstacle in Hin.
    destruct (Qgtb _ _); [|now apply Hinv].
    apply in_app_or in Hin. destruct Hin as [Hin|[<-|[]]]; [now apply Hinv|].
    cbn. now apply floor_of_lane_draw.
  - cbn [moveObstacle o_type]. unfold visitedObstacles, spawnObstacle in Hin.
    destruct (Qgtb _ _); [|now apply Hinv].
    apply in_app_or in Hin. destruct Hin as [Hin|[<-|[]]]; [now apply Hinv|].
    reflexivity.
Qed.

(** X16. Obstacles stay on the track.  When every lane draw is a value of
    [Math.random()], that is in [0, 1), every live obstacle of every state
    the session reaches is a lava block in lane 0, 1 or 2 with depth at
    most 5. *)
Theorem obstacles_stay_in_lanes
    (now : Q) (cmds : list (Clocks * Command)) (e : Engine) :
  Forall (fun c => laneDrawInRange (snd c)) cmds ->
  run cmds (mounted now) = Some e ->
  forall o, In o (obstaclesRef e) ->
    (0 <= o_lane o <= 2)%Z /\ o_type o = lava_block /\ o_z o <= 5.
Proof.
  intros Hall Hrun.
  assert (Hgen : forall cmds e0 e1,
            Forall (fun c => laneDrawInRange (snd c)) cmds ->
            (forall o, In o (obstaclesRef e0) ->
               (0 <= o_lane o <= 2)%Z /\ o_type o = lava_block /\ o_z o <= 5) ->
            run cmds e0 = Some e1 ->
            forall o, In o (obstaclesRef e1) ->
              (0 <= o_lane o <= 2)%Z /\ o_type o = lava_block /\ o_z o <= 5).
  { clear. induction cmds as [|[c cmd] rest IH]; intros e0 e1 Hall Hinv H;
      cbn [run] in H.
    - now injection H as <-.
    - destruct (step c cmd e0) as [e'|] eqn:E; [|discriminate].
      apply Forall_cons_iff in Hall. destruct Hall as [Hcmd Hrest].
      cbn [snd] in Hcmd.
      apply (IH e' e1 Hrest); [|exact H].
      assert (Hafter : forall e2 b,
                runEffects c (gameState e0) b e2 = Some e' ->
                (forall o, In o (obstaclesRef e2) ->
                   (0 <= o_lane o <= 2)%Z /\ o_type o = lava_block /\ o_z o <= 5) ->
                forall o, In o (obstaclesRef e') ->
                  (0 <= o_lane o <= 2)%Z /\ o_type o = lava_block /\ o_z o <= 5).
      { intros e2 b Hr H2 o. apply runEffects_facts in Hr. cbn zeta in Hr.
        destruct Hr as (_ & _ & O & _). rewrite O.
        destruct (_ || _); [intros []|apply H2]. }
      destruct cmd; cbn [step] in E; apply (Hafter _ _ E); try exact Hinv.
      now apply animate_lanes. }
  apply (Hgen cmds (mounted now) e Hall); [|exact Hrun].
  intros o [].
Qed.

Lemma obstacles_stay_in_lanes_witness :
  Forall (fun c => laneDrawInRange (snd c)) (firstn 3 threeHits)
  /\ run (firstn 3 threeHits) (mounted 0) = Some afterTwoHits
  /\ List.length (obstaclesRef afterTwoHits) = 1%nat
  /\ forall o, In o (obstaclesRef afterTwoHits) ->
       (0 <= o_lane o <= 2)%Z /\ o_type o = lava_block /\ o_z o <= 5.
Proof.
  assert (Hall : Forall (fun c => laneDrawInRange (snd c)) (firstn 3 threeHits)).
  { repeat constructor; cbn; discriminate. }
  assert (Hrun : run (firstn 3 threeHits) (mounted 0) = Some afterTwoHits)
    by (vm_compute; reflexivity).
  split; [exact Hall|]. split; [exact Hrun|]. split; [vm_compute; reflexivity|].
  exact (obstacles_stay_in_lanes 0 (firstn 3 threeHits) afterTwoHits Hall Hrun).
Defined.

(** ** The lane lerp *)

(** X17. The player's mesh glides to its lane without overshooting at 10
    frames a second or more.  One tick leaves (1 - 10 dt) of the gap to the
    target: for a time step between 0 and 0.1 s the new x lies between the
    old x and the target, and a step of exactly 0.1 s lands on the target.
    The targets of lanes 0, 1, 2 are -3.5, 0 and 3.5. *)
Theorem lane_lerp_no_overshoot (x dt : Q) (lane : Lane) :
  0 <= dt -> dt <= 0.1 ->
  let target := laneX lane in
  let x' := lerpX x target dt in
  target - x' == (1 - 10 * dt) * (target - x)
  /\ Qabs (target - x') <= Qabs (target - x)
  /\ (x <= target -> x <= x' /\ x' <= target)
  /\ (target <= x -> target <= x' /\ x' <= x)
  /\ (dt == 0.1 -> x' == target)
  /\ laneX 0%Z == -3.5 /\ laneX 1%Z == 0 /\ laneX 2%Z == 3.5.
Proof.
  intros H0 H1 target x'.
  assert (Hgap : target - x' == (1 - 10 * dt) * (target - x))
    by (unfold x', lerpX; ring).
  assert (Hx : x' == x + 10 * dt * (target - x)) by (unfold x', lerpX; ring).
  split; [exact Hgap|].
  split.
  { rewrite Hgap, Qabs_Qmult. rewrite (Qabs_pos (1 - 10 * dt)) by lra.
    pose proof (Qabs_nonneg (target - x)) as Hn.
    assert (0 <= 10 * dt * Qabs (target - x))
      by (apply Qmult_le_0_compat; lra).
    lra. }
  split.
  { intros Hle.
    assert (0 <= 10 * dt * (target - x)) by (apply Qmult_le_0_compat; lra).
    assert (0 <= (1 - 10 * dt) * (target - x)) by (apply Qmult_le_0_compat; lra).
    split; lra. }
  split.
  { intros Hle.
    assert (0 <= 10 * dt * (x - target)) by (apply Qmult_le_0_compat; lra).
    assert (0 <= (1 - 10 * dt) * (x - target)) by (apply Qmult_le_0_compat; lra).
    split; lra. }
  split.
  { intros E. rewrite Hx, E. ring. }
  repeat split.
Qed.

Lemma lane_lerp_no_overshoot_witness :
  0 <= 0.016 /\ 0.016 <= 0.1
  /\ 0 <= lerpX 0 (laneX 2%Z) 0.016 /\ lerpX 0 (laneX 2%Z) 0.016 <= laneX 2%Z.
Proof.
  assert (H0 : 0 <= 0.016) by discriminate.
  assert (H1 : 0.016 <= 0.1) by discriminate.
  destruct (lane_lerp_no_overshoot 0 0.016 2%Z H0 H1) as (_ & _ & Hup & _).
  split; [exact H0|]. split; [exact H1|].
  apply Hup. discriminate.
Defined.

(** ** Where decorations are spawned *)


